(** * AmericanPizzaProject: filtering, text assembly and score aggregation

    A shallow embedding of the tabular glue code of the Streamlit app
    ([data_processor.py], [theme_analyzer.py], [app.py]) and the
    properties its specification states about it.

    Modelling conventions.
    - A Python [str] is the list of its Unicode code points ([pystr]).
    - A DataFrame is the list of its rows, in index order; a cell that
      pandas treats as null (None / NaN) is [None], any other cell is
      [Some] of its value.
    - A float is an exact rational or one of the IEEE specials
      ([pyfloat]); comparisons are exact, which is what float comparison
      does on the values themselves.
    - Library calls whose behaviour the program does not pin down
      (the string-to-number parser of [pd.to_numeric], the literal parser
      [ast.literal_eval], the sorting algorithm behind [sort_values]) are
      taken as parameters; concrete instances are supplied to run examples. *)

From Stdlib Require Import List Bool Arith NArith ZArith QArith Lia.
From Stdlib Require Import String Ascii.
From Stdlib Require Import Permutation Sorted.
Import ListNotations.
Close Scope Q_scope.
Open Scope string_scope.
Open Scope list_scope.

Set Implicit Arguments.

(** ** Python strings *)

Module PyStr.

Definition pychar := N.
Definition pystr := list pychar.

(** Read an ASCII literal as a Python string. *)
Definition py (s : string) : pystr :=
  map N_of_ascii (list_ascii_of_string s).

Fixpoint pystr_eqb (a b : pystr) : bool :=
  match a, b with
  | [], [] => true
  | x :: a', y :: b' => N.eqb x y && pystr_eqb a' b'
  | _, _ => false
  end.

Definition pystr_eq_dec : forall a b : pystr, {a = b} + {a <> b} :=
  list_eq_dec N.eq_dec.

(** [str.isspace] on one code point: the characters [str.strip()] removes. *)
Definition isspace (c : pychar) : bool :=
  ((9 <=? c) && (c <=? 13) || (28 <=? c) && (c <=? 32)
   || (c =? 133) || (c =? 160) || (c =? 5760)
   || (8192 <=? c) && (c <=? 8202)
   || (c =? 8232) || (c =? 8233) || (c =? 8239) || (c =? 8287)
   || (c =? 12288))%N.

Fixpoint lstrip_by (p : pychar -> bool) (s : pystr) : pystr :=
  match s with
  | [] => []
  | c :: s' => if p c then lstrip_by p s' else s
  end.

Definition rstrip_by (p : pychar -> bool) (s : pystr) : pystr :=
  rev (lstrip_by p (rev s)).

Definition strip_by (p : pychar -> bool) (s : pystr) : pystr :=
  rstrip_by p (lstrip_by p s).

(** [s.strip()] *)
Definition strip (s : pystr) : pystr := strip_by isspace s.

(** [s.strip(chars)] *)
Definition strip_chars (chars : pystr) (s : pystr) : pystr :=
  strip_by (fun c => existsb (N.eqb c) chars) s.

(** [sep.join(xs)] *)
Fixpoint join (sep : pystr) (xs : list pystr) : pystr :=
  match xs with
  | [] => []
  | [x] => x
  | x :: xs' => x ++ sep ++ join sep xs'
  end.

(** [s.split(sep)] for a one-character separator. *)
Fixpoint split (sep : pychar) (s : pystr) : list pystr :=
  match s with
  | [] => [[]]
  | c :: s' =>
      if N.eqb c sep then [] :: split sep s'
      else match split sep s' with
           | [] => [[c]]
           | w :: ws => (c :: w) :: ws
           end
  end.

(** Code-point order, the order of [<] on Python strings. *)
Fixpoint pystr_leb (a b : pystr) : bool :=
  match a, b with
  | [], _ => true
  | _ :: _, [] => false
  | x :: a', y :: b' =>
      if N.ltb x y then true
      else if N.eqb x y then pystr_leb a' b' else false
  end.

(** A string is blank when stripping leaves nothing. *)
Definition blank (s : pystr) : bool :=
  match strip s with [] => true | _ => false end.

Definition trimmed (s : pystr) : Prop :=
  match s with
  | [] => True
  | c :: _ => isspace c = false /\ isspace (last s c) = false
  end.

(** *** Facts about stripping *)

Lemma pystr_eqb_spec : forall a b, pystr_eqb a b = true <-> a = b.
Proof.
  induction a as [|x a IH]; destruct b as [|y b]; simpl; split;
    try congruence; try reflexivity.
  - intros H. apply andb_true_iff in H as [H1 H2].
    apply N.eqb_eq in H1. apply IH in H2. congruence.
  - intros H. injection H as -> ->.
    rewrite N.eqb_refl. simpl. now apply IH.
Qed.

Lemma pystr_eqb_refl : forall a, pystr_eqb a a = true.
Proof. intros a. now apply pystr_eqb_spec. Qed.

Lemma lstrip_by_all : forall p s,
  lstrip_by p s = [] <-> forallb p s = true.
Proof.
  induction s as [|c s IH]; simpl.
  - tauto.
  - destruct (p c); simpl.
    + exact IH.
    + split; discriminate.
Qed.

Lemma lstrip_by_head : forall p s c t,
  lstrip_by p s = c :: t -> p c = false.
Proof.
  induction s as [|a s IH]; simpl; intros c t H.
  - discriminate.
  - destruct (p a) eqn:E.
    + eauto.
    + injection H as <- _. exact E.
Qed.

Lemma lstrip_by_suffix : forall p s, exists pre,
  s = pre ++ lstrip_by p s /\ forallb p pre = true.
Proof.
  induction s as [|a s [pre [IH1 IH2]]]; simpl.
  - exists []. auto.
  - destruct (p a) eqn:E.
    + exists (a :: pre). simpl. rewrite E, IH2. split; [|reflexivity].
      f_equal. exact IH1.
    + exists []. auto.
Qed.

Lemma forallb_rev : forall (p : pychar -> bool) s,
  forallb p (rev s) = forallb p s.
Proof.
  induction s as [|a s IH]; simpl; auto.
  rewrite forallb_app, IH. simpl. rewrite andb_true_r. apply andb_comm.
Qed.

Lemma strip_by_nil_iff : forall p s,
  strip_by p s = [] <-> forallb p s = true.
Proof.
  intros p s. unfold strip_by, rstrip_by. split.
  - intros H.
    destruct (lstrip_by p s) as [|c t] eqn:E.
    + now apply lstrip_by_all.
    + exfalso.
      assert (Hc : p c = false) by (eapply lstrip_by_head; eauto).
      apply (f_equal (@rev _)) in H. rewrite rev_involutive in H. simpl in H.
      apply lstrip_by_all in H. rewrite forallb_app in H.
      simpl in H. rewrite Hc in H.
      rewrite andb_false_r in H. discriminate.
  - intros H. apply lstrip_by_all in H. rewrite H. reflexivity.
Qed.

Lemma blank_iff : forall s, blank s = true <-> forallb isspace s = true.
Proof.
  intros s. unfold blank, strip. rewrite <- strip_by_nil_iff.
  destruct (strip_by isspace s); split; congruence.
Qed.

Lemma blank_false_iff : forall s,
  blank s = false <-> exists c, In c s /\ isspace c = false.
Proof.
  intros s. split.
  - intros H. destruct (forallb isspace s) eqn:E.
    + apply blank_iff in E. congruence.
    + clear H. induction s as [|a s IH]; simpl in E; [discriminate|].
      destruct (isspace a) eqn:Ea.
      * destruct (IH E) as [c [Hc1 Hc2]]. exists c. simpl. auto.
      * exists a. simpl. auto.
  - intros [c [Hin Hc]]. destruct (blank s) eqn:E; [|reflexivity].
    apply blank_iff in E. rewrite forallb_forall in E.
    rewrite (E c Hin) in Hc. discriminate.
Qed.

Lemma strip_by_ends : forall p s c t,
  strip_by p s = c :: t -> p c = false /\ p (last (c :: t) c) = false.
Proof.
  intros p s c t H. unfold strip_by, rstrip_by in H.
  destruct (lstrip_by_suffix p (rev (lstrip_by p s))) as [pre [Hpre Hall]].
  destruct (lstrip_by p (rev (lstrip_by p s))) as [|x u] eqn:Eu;
    [discriminate|].
  assert (Hx : p x = false) by (eapply lstrip_by_head; eauto).
  simpl in H. split.
  - destruct (lstrip_by p s) as [|y w] eqn:Es.
    + simpl in Eu. discriminate.
    + assert (Hy : p y = false) by (eapply lstrip_by_head; eauto).
      apply (f_equal (@rev _)) in Hpre.
      rewrite rev_involutive, rev_app_distr in Hpre. simpl in Hpre.
      rewrite H in Hpre. simpl in Hpre. injection Hpre as Hyc _. congruence.
  - rewrite <- H. rewrite last_last. exact Hx.
Qed.

Lemma strip_trimmed : forall s, trimmed (strip s).
Proof.
  intros s. unfold trimmed, strip.
  destruct (strip_by isspace s) as [|c t] eqn:E; [exact I|].
  eapply strip_by_ends; eauto.
Qed.

Lemma join_nil_iff : forall sep xs,
  (forall x, In x xs -> x <> []) -> (join sep xs = [] <-> xs = []).
Proof.
  intros sep xs H. destruct xs as [|x xs]; simpl; [tauto|].
  assert (Hx : x <> []) by (apply H; simpl; auto).
  split; [|discriminate].
  destruct xs; [congruence|].
  destruct x; [congruence|discriminate].
Qed.

Lemma in_join : forall sep xs x c, In x xs -> In c x -> In c (join sep xs).
Proof.
  induction xs as [|y xs IH]; simpl; intros x c Hx Hc; [contradiction|].
  destruct xs as [|z xs].
  - destruct Hx as [->|[]]. exact Hc.
  - apply in_or_app. destruct Hx as [->|Hx]; [left; exact Hc|].
    right. apply in_or_app. right. eapply IH; eauto.
Qed.

End PyStr.

(** ** List facts *)

Module ListFacts.

Lemma filter_all : forall (A : Type) (l : list A), filter (fun _ => true) l = l.
Proof. induction l; simpl; congruence. Qed.

Lemma filter_filter : forall (A : Type) (p q : A -> bool) l,
  filter q (filter p l) = filter (fun x => p x && q x) l.
Proof.
  induction l as [|a l IH]; simpl; [reflexivity|].
  destruct (p a); simpl; [destruct (q a)|]; simpl; congruence.
Qed.

Lemma filter_map_comm : forall (A B : Type) (f : A -> B) (p : B -> bool) l,
  filter p (map f l) = map f (filter (fun a => p (f a)) l).
Proof.
  induction l as [|a l IH]; simpl; [reflexivity|].
  destruct (p (f a)); simpl; congruence.
Qed.

Lemma filter_nil_iff : forall (A : Type) (p : A -> bool) l,
  filter p l = [] <-> forall x, In x l -> p x = false.
Proof.
  induction l as [|a l IH]; simpl.
  - tauto.
  - destruct (p a) eqn:E; split.
    + discriminate.
    + intros H. specialize (H a (or_introl eq_refl)). congruence.
    + intros H x [<-|Hx]; [exact E|]. now apply IH.
    + intros H. apply IH. auto.
Qed.

Lemma in_firstn : forall (A : Type) n (l : list A) x,
  In x (firstn n l) -> In x l.
Proof.
  induction n as [|n IH]; destruct l as [|a l]; simpl; intros x H;
    try contradiction.
  destruct H as [H|H]; [left; exact H|right; eauto].
Qed.

Lemma filter_without : forall (A : Type) (p : A -> bool) x l1 l2,
  p x = false -> filter p (l1 ++ x :: l2) = filter p (l1 ++ l2).
Proof.
  intros A p x l1 l2 H. rewrite !filter_app. cbn [filter]. now rewrite H.
Qed.

End ListFacts.

(** ** Exceptions and results *)

Module Py.

Inductive exn :=
| ValueError (msg : string)
| KeyError (key : string)
| AttributeError (msg : string)
| ZeroDivisionError.

Inductive result (A : Type) :=
| Ok (a : A)
| Raise (e : exn).

Arguments Ok {A} a.
Arguments Raise {A} e.

Definition rbind {A B} (m : result A) (k : A -> result B) : result B :=
  match m with
  | Ok a => k a
  | Raise e => Raise e
  end.

(** Truth value of an optional list argument: [None] and [[]] are falsy. *)
Definition truthy {A} (o : option (list A)) : bool :=
  match o with
  | Some (_ :: _) => true
  | _ => false
  end.

(** The list an optional argument stands for. *)
Definition values {A} (o : option (list A)) : list A :=
  match o with
  | Some l => l
  | None => []
  end.

End Py.

(** ** data_processor.py *)

Module DataProcessor.
Import PyStr Py ListFacts.

Definition cell := option pystr.

(** The eight [DEMO_COLS]. *)
Record demographics := {
  participant_id : cell;
  age : option Z;
  city_of_residence : cell;
  state_of_residence : cell;
  region_of_residence : cell;
  income : cell;
  pizza_consumption : cell;
  food_restrictions : cell
}.

(** One row of the interview table: demographics and five responses. *)
Record participant := {
  demo : demographics;
  q1_response : cell;
  q2_response : cell;
  q3_response : cell;
  q4_response : cell;
  q5_response : cell
}.

Definition table := list participant.

Definition RESPONSE_COLS : list pystr :=
  [py "q1_response"; py "q2_response"; py "q3_response";
   py "q4_response"; py "q5_response"].

(** [row[q]] for a response column. *)
Definition column (r : participant) (q : pystr) : cell :=
  if pystr_eqb q (py "q1_response") then q1_response r
  else if pystr_eqb q (py "q2_response") then q2_response r
  else if pystr_eqb q (py "q3_response") then q3_response r
  else if pystr_eqb q (py "q4_response") then q4_response r
  else if pystr_eqb q (py "q5_response") then q5_response r
  else None.

(** *** DataFrame objects

    [filter_by_demographics] copies its argument and rebinds [sub] to the
    frames that boolean indexing returns.  Frames are objects: the store
    holds every live frame, a reference is its position. *)

Definition store := list table.
Definition ref := nat.
Definition M (A : Type) := store -> A * store.

Definition ret {A} (a : A) : M A := fun s => (a, s).
Definition bind {A B} (m : M A) (k : A -> M B) : M B :=
  fun s => let (a, s') := m s in k a s'.

Notation "x <- m ;; k" := (bind m (fun x => k))
  (at level 61, m at next level, right associativity).

Definition deref (r : ref) : M table := fun s => (nth r s [], s).
Definition alloc (t : table) : M ref := fun s => (List.length s, s ++ [t]).

(** [df.copy()] *)
Definition df_copy (df : ref) : M ref :=
  t <- deref df ;; alloc t.

(** [df[mask]] with a row-wise boolean mask. *)
Definition df_getitem (df : ref) (mask : participant -> bool) : M ref :=
  t <- deref df ;; alloc (filter mask t).

(** [series.isin(values)] on one cell: a null cell is in no list of values. *)
Definition isin {A} (eqb : A -> A -> bool) (v : option A) (vals : list A) : bool :=
  match v with
  | Some x => existsb (eqb x) vals
  | None => false
  end.

Definition filter_by_demographics (df : ref)
    (regions : option (list pystr)) (ages : option (list Z))
    (incomes diets : option (list pystr)) : M ref :=
  sub <- df_copy df ;;
  sub <- (if truthy regions
          then df_getitem sub
                 (fun r => isin pystr_eqb (region_of_residence (demo r)) (values regions))
          else ret sub) ;;
  sub <- (if truthy ages
          then df_getitem sub (fun r => isin Z.eqb (age (demo r)) (values ages))
          else ret sub) ;;
  sub <- (if truthy incomes
          then df_getitem sub (fun r => isin pystr_eqb (income (demo r)) (values incomes))
          else ret sub) ;;
  sub <- (if truthy diets
          then df_getitem sub
                 (fun r => isin pystr_eqb (food_restrictions (demo r)) (values diets))
          else ret sub) ;;
  ret sub.

(** *** Text assembly *)

(** A row of the frame [build_text_df] returns: [DEMO_COLS] and [text]. *)
Record document := {
  doc_demo : demographics;
  text : pystr
}.

(** [str(r)] of a cell. *)
Definition str_of_cell (c : cell) : pystr :=
  match c with
  | Some s => s
  | None => py "nan"
  end.

(** The condition of the comprehension: [pd.notnull(r)] and [str(r).strip()]
    is not the empty string. *)
Definition keep_cell (c : cell) : bool :=
  match c with
  | Some _ => negb (blank (str_of_cell c))
  | None => false
  end.

(** The lambda applied to each row of [df[valid_qs]], then [.str.strip()]. *)
Definition row_text (valid_qs : list pystr) (r : participant) : pystr :=
  strip (join (py " ")
           (map str_of_cell (filter keep_cell (map (column r) valid_qs)))).

(** On a frame without rows, [apply(..., axis=1)] does not call the lambda
    row by row: it returns an empty float Series, and the [.str] accessor
    refuses a Series that does not hold strings. *)
Definition build_text_df (df : table) (questions : list pystr)
  : result (list document) :=
  let valid_qs :=
    filter (fun q => existsb (pystr_eqb q) RESPONSE_COLS) questions in
  match valid_qs, df with
  | [], _ => Raise (ValueError "No valid question columns selected.")
  | _, [] =>
      Raise (AttributeError "Can only use .str accessor with string values!")
  | _, _ =>
      let out := map (fun r => {| doc_demo := demo r;
                                  text := row_text valid_qs r |}) df in
      Ok (filter (fun d => negb (pystr_eqb (text d) [])) out)
  end.

(** *** What the specification says, in its own words *)

(** A row meets a criterion when the criterion is absent or empty, or the
    row's value is one of the listed values. *)
Definition criterion_ok {A} (eqb : A -> A -> bool)
    (c : option (list A)) (v : option A) : bool :=
  negb (truthy c) || isin eqb v (values c).

Definition meets_criteria (regions : option (list pystr))
    (ages : option (list Z)) (incomes diets : option (list pystr))
    (r : participant) : bool :=
  criterion_ok pystr_eqb regions (region_of_residence (demo r))
  && criterion_ok Z.eqb ages (age (demo r))
  && criterion_ok pystr_eqb incomes (income (demo r))
  && criterion_ok pystr_eqb diets (food_restrictions (demo r)).

(** The selected fields that are neither null nor blank, in selection order. *)
Fixpoint spec_fields (r : participant) (qs : list pystr) : list pystr :=
  match qs with
  | [] => []
  | q :: qs' =>
      match column r q with
      | Some s => if blank s then spec_fields r qs' else s :: spec_fields r qs'
      | None => spec_fields r qs'
      end
  end.

(** Joined with single spaces, then trimmed. *)
Definition spec_text (r : participant) (qs : list pystr) : pystr :=
  strip (join (py " ") (spec_fields r qs)).

(** *** The frame store *)

Definition holds (s : store) (r : ref) (t : table) : Prop :=
  nth_error s r = Some t.

Lemma holds_deref : forall s r t, holds s r t -> nth r s [] = t.
Proof. intros s r t H. now apply nth_error_nth. Qed.

Lemma holds_bound : forall s r t, holds s r t -> r < List.length s.
Proof. intros s r t H. apply nth_error_Some. unfold holds in H. congruence. Qed.

Lemma holds_app : forall s extra r t, holds s r t -> holds (s ++ extra) r t.
Proof.
  unfold holds. intros s extra r t H.
  rewrite nth_error_app1; [exact H|].
  apply nth_error_Some. congruence.
Qed.

Lemma holds_fresh : forall s t, holds (s ++ [t]) (List.length s) t.
Proof.
  unfold holds. intros s t.
  rewrite nth_error_app2 by lia. now rewrite Nat.sub_diag.
Qed.

(** One conditional narrowing step [if c: sub = sub[mask]]. *)
Lemma narrow_step : forall (b : bool) (mask : participant -> bool) (s0 s : store) sub t,
  holds s sub t -> List.length s0 <= sub ->
  (forall r u, holds s0 r u -> holds s r u) ->
  exists sub' s',
    (if b then df_getitem sub mask else ret sub) s = (sub', s') /\
    holds s' sub' (filter (fun r => negb b || mask r) t) /\
    List.length s0 <= sub' /\
    (forall r u, holds s0 r u -> holds s' r u).
Proof.
  intros b mask s0 s sub t H Hle Hframe. destruct b; simpl.
  - exists (List.length s), (s ++ [filter mask t]).
    unfold df_getitem, bind, deref, alloc.
    rewrite (holds_deref H). repeat split.
    + apply holds_fresh.
    + pose proof (holds_bound H). lia.
    + intros r u Hr. apply holds_app. auto.
  - exists sub, s. unfold ret. rewrite filter_all. auto.
Qed.

Lemma filter_by_demographics_run : forall (s : store) df t regions ages incomes diets,
  holds s df t ->
  exists res s',
    filter_by_demographics df regions ages incomes diets s = (res, s') /\
    holds s' res (filter (meets_criteria regions ages incomes diets) t) /\
    List.length s <= res /\
    (forall r u, holds s r u -> holds s' r u).
Proof.
  intros s df t regions ages incomes diets H.
  unfold filter_by_demographics.
  unfold bind at 1. unfold df_copy, bind at 1, deref, alloc.
  rewrite (holds_deref H).
  assert (H0 : holds (s ++ [t]) (List.length s) t) by apply holds_fresh.
  assert (F0 : forall r u, holds s r u -> holds (s ++ [t]) r u)
    by (intros; now apply holds_app).
  destruct (@narrow_step (truthy regions)
              (fun r => isin pystr_eqb (region_of_residence (demo r)) (values regions))
              s _ _ _ H0 (Nat.le_refl _) F0) as (r1 & s1 & E1 & H1 & L1 & F1).
  destruct (@narrow_step (truthy ages)
              (fun r => isin Z.eqb (age (demo r)) (values ages))
              s _ _ _ H1 L1 F1) as (r2 & s2 & E2 & H2 & L2 & F2).
  destruct (@narrow_step (truthy incomes)
              (fun r => isin pystr_eqb (income (demo r)) (values incomes))
              s _ _ _ H2 L2 F2) as (r3 & s3 & E3 & H3 & L3 & F3).
  destruct (@narrow_step (truthy diets)
              (fun r => isin pystr_eqb (food_restrictions (demo r)) (values diets))
              s _ _ _ H3 L3 F3) as (r4 & s4 & E4 & H4 & L4 & F4).
  exists r4, s4.
  unfold bind. rewrite E1, E2, E3, E4. unfold ret.
  repeat split; auto.
  rewrite !filter_filter in H4.
  erewrite filter_ext; [exact H4|].
  intros a. unfold meets_criteria, criterion_ok.
  now rewrite !andb_assoc.
Qed.

(** C5. The demographic filter returns a new frame holding exactly the
    input rows (in input order) whose attributes belong to every supplied
    non-empty criterion list; absent or empty criteria do not restrict, so
    with no criteria the result has all input rows; the input frame and
    every other live frame are left as they were; when no row qualifies
    the call still returns, with an empty frame. *)
Theorem filter_by_demographics_correct :
  forall (s : store) df t regions ages incomes diets,
  holds s df t ->
  exists res s' out,
    filter_by_demographics df regions ages incomes diets s = (res, s') /\
    holds s' res out /\
    out = filter (meets_criteria regions ages incomes diets) t /\
    (forall r, In r out <->
               In r t /\ meets_criteria regions ages incomes diets r = true) /\
    (truthy regions = false -> truthy ages = false ->
     truthy incomes = false -> truthy diets = false -> out = t) /\
    ((forall r, In r t -> meets_criteria regions ages incomes diets r = false) ->
     out = []) /\
    res <> df /\
    holds s' df t /\
    (forall r u, holds s r u -> holds s' r u).
Proof.
  intros s df t regions ages incomes diets H.
  destruct (filter_by_demographics_run regions ages incomes diets H)
    as (res & s' & E & Hres & Hle & Hframe).
  exists res, s', (filter (meets_criteria regions ages incomes diets) t).
  split; [exact E|]. split; [exact Hres|]. split; [reflexivity|].
  split; [|split; [|split; [|split; [|split]]]].
  - intros r. rewrite filter_In. tauto.
  - intros Hr Ha Hi Hd. erewrite filter_ext; [apply filter_all|].
    intros a. unfold meets_criteria, criterion_ok.
    now rewrite Hr, Ha, Hi, Hd.
  - intros Hnone. destruct (filter _ t) as [|a l] eqn:Ef; [reflexivity|].
    assert (Ha : In a (filter (meets_criteria regions ages incomes diets) t))
      by (rewrite Ef; simpl; auto).
    apply filter_In in Ha. destruct Ha as [Ha1 Ha2].
    rewrite (Hnone a Ha1) in Ha2. discriminate.
  - pose proof (holds_bound H). lia.
  - now apply Hframe.
  - exact Hframe.
Qed.

(** A store with one frame of four participants, two per region. *)
Definition person (pid region : string) (a : Z) : participant :=
  {| demo := {| participant_id := Some (py pid); age := Some a;
                city_of_residence := None; state_of_residence := None;
                region_of_residence := Some (py region);
                income := Some (py "50-75k");
                pizza_consumption := None; food_restrictions := None |};
     q1_response := Some (py "Loved it"); q2_response := None;
     q3_response := None; q4_response := None; q5_response := None |}.

Definition four_people : table :=
  [person "p1" "Northeast" 30; person "p2" "South" 41;
   person "p3" "Northeast" 52; person "p4" "South" 23].

Lemma filter_by_demographics_correct_witness :
  holds [four_people] 0 four_people /\
  exists res s' out,
    filter_by_demographics 0 (Some [py "Northeast"]) None None None
      [four_people] = (res, s') /\
    holds s' res out /\
    out = filter (meets_criteria (Some [py "Northeast"]) None None None)
            four_people /\
    (forall r, In r out <->
               In r four_people /\
               meets_criteria (Some [py "Northeast"]) None None None r = true) /\
    (truthy (Some [py "Northeast"]) = false -> truthy (@None (list Z)) = false ->
     truthy (@None (list pystr)) = false -> truthy (@None (list pystr)) = false ->
     out = four_people) /\
    ((forall r, In r four_people ->
        meets_criteria (Some [py "Northeast"]) None None None r = false) ->
     out = []) /\
    res <> 0 /\
    holds s' 0 four_people /\
    (forall r u, holds [four_people] r u -> holds s' r u).
Proof.
  split; [reflexivity|].
  apply (@filter_by_demographics_correct [four_people] 0 four_people
           (Some [py "Northeast"]) None None None).
  reflexivity.
Defined.

(** The scenario of the specification: filtering four participants by
    region Northeast yields exactly the two Northeast rows, unchanged. *)
Example filter_northeast :
  filter_by_demographics 0 (Some [py "Northeast"]) None None None [four_people]
  = (2, [four_people; four_people;
         [person "p1" "Northeast" 30; person "p3" "Northeast" 52]]).
Proof. vm_compute. reflexivity. Qed.

(** C10. A row whose attribute is null is excluded as soon as the
    criterion on that attribute is supplied and non-empty, whatever the
    listed values; with that criterion absent or empty the row is kept
    exactly when it meets the remaining criteria. *)
Theorem null_attribute_rows :
  forall (s : store) df t regions ages incomes diets r,
  holds s df t -> In r t ->
  exists res s' out,
    filter_by_demographics df regions ages incomes diets s = (res, s') /\
    holds s' res out /\
    (region_of_residence (demo r) = None ->
       (truthy regions = true -> ~ In r out) /\
       (truthy regions = false ->
        (In r out <-> meets_criteria None ages incomes diets r = true))) /\
    (age (demo r) = None ->
       (truthy ages = true -> ~ In r out) /\
       (truthy ages = false ->
        (In r out <-> meets_criteria regions None incomes diets r = true))) /\
    (income (demo r) = None ->
       (truthy incomes = true -> ~ In r out) /\
       (truthy incomes = false ->
        (In r out <-> meets_criteria regions ages None diets r = true))) /\
    (food_restrictions (demo r) = None ->
       (truthy diets = true -> ~ In r out) /\
       (truthy diets = false ->
        (In r out <-> meets_criteria regions ages incomes None r = true))).
Proof.
  intros s df t regions ages incomes diets r H Hin.
  destruct (filter_by_demographics_run regions ages incomes diets H)
    as (res & s' & E & Hres & _ & _).
  exists res, s', (filter (meets_criteria regions ages incomes diets) t).
  split; [exact E|]. split; [exact Hres|].
  repeat apply conj; intros Hc; split; intros Ht; rewrite filter_In;
    unfold meets_criteria, criterion_ok; rewrite Hc, Ht; simpl;
    repeat (rewrite ?andb_false_r; simpl);
    solve [ intros [_ F]; discriminate | tauto ].
Qed.

(** A participant whose region is missing. *)
Definition no_region : participant :=
  {| demo := {| participant_id := Some (py "p9"); age := None;
                city_of_residence := None; state_of_residence := None;
                region_of_residence := None; income := None;
                pizza_consumption := None; food_restrictions := None |};
     q1_response := Some (py "  "); q2_response := Some (py "Loved it");
     q3_response := None; q4_response := None; q5_response := None |}.

Lemma null_attribute_rows_witness :
  holds [no_region :: four_people] 0 (no_region :: four_people) /\
  In no_region (no_region :: four_people) /\
  exists res s' out,
    filter_by_demographics 0 (Some [py "South"]) None None None
      [no_region :: four_people] = (res, s') /\
    holds s' res out /\
    (region_of_residence (demo no_region) = None ->
       (truthy (Some [py "South"]) = true -> ~ In no_region out) /\
       (truthy (Some [py "South"]) = false ->
        (In no_region out <-> meets_criteria None None None None no_region = true))) /\
    (age (demo no_region) = None ->
       (truthy (@None (list Z)) = true -> ~ In no_region out) /\
       (truthy (@None (list Z)) = false ->
        (In no_region out <->
         meets_criteria (Some [py "South"]) None None None no_region = true))) /\
    (income (demo no_region) = None ->
       (truthy (@None (list pystr)) = true -> ~ In no_region out) /\
       (truthy (@None (list pystr)) = false ->
        (In no_region out <->
         meets_criteria (Some [py "South"]) None None None no_region = true))) /\
    (food_restrictions (demo no_region) = None ->
       (truthy (@None (list pystr)) = true -> ~ In no_region out) /\
       (truthy (@None (list pystr)) = false ->
        (In no_region out <->
         meets_criteria (Some [py "South"]) None None None no_region = true))).
Proof.
  split; [reflexivity|]. split; [simpl; auto|].
  apply (@null_attribute_rows [no_region :: four_people] 0
           (no_region :: four_people) (Some [py "South"]) None None None
           no_region).
  - reflexivity.
  - simpl. auto.
Defined.

(** *** Text assembly: validation *)

Lemma known_column_iff : forall q,
  existsb (pystr_eqb q) RESPONSE_COLS = true <-> In q RESPONSE_COLS.
Proof.
  intros q. rewrite existsb_exists. split.
  - intros [x [Hx E]]. apply pystr_eqb_spec in E. congruence.
  - intros H. exists q. split; [exact H|apply pystr_eqb_refl].
Qed.

Lemma build_text_df_cases : forall df qs,
  (filter (fun q => existsb (pystr_eqb q) RESPONSE_COLS) qs = [] /\
   build_text_df df qs = Raise (ValueError "No valid question columns selected."))
  \/
  (filter (fun q => existsb (pystr_eqb q) RESPONSE_COLS) qs <> [] /\
   df = [] /\
   build_text_df df qs =
   Raise (AttributeError "Can only use .str accessor with string values!"))
  \/
  (filter (fun q => existsb (pystr_eqb q) RESPONSE_COLS) qs <> [] /\
   df <> [] /\
   build_text_df df qs =
   Ok (filter (fun d => negb (pystr_eqb (text d) []))
         (map (fun r => {| doc_demo := demo r;
                           text := row_text
                             (filter (fun q => existsb (pystr_eqb q) RESPONSE_COLS) qs) r |})
              df))).
Proof.
  intros df qs. unfold build_text_df.
  destruct (filter _ qs) as [|q l]; [left; split; reflexivity|].
  destruct df as [|r df]; right; [left|right];
    (split; [discriminate|split; [try reflexivity; discriminate|reflexivity]]).
Qed.

(** C3, as the code has it. The assembler raises its validation error
    exactly when no selected name is one of the five response fields (in
    particular on the empty selection); on a table with rows, a selection
    with at least one known name succeeds, unknown names in it being
    ignored. *)
Theorem build_text_df_raises_iff : forall r df qs,
  (build_text_df df qs = Raise (ValueError "No valid question columns selected.")
   <-> (forall q, In q qs -> ~ In q RESPONSE_COLS)) /\
  ((exists out, build_text_df (r :: df) qs = Ok out)
   <-> (exists q, In q qs /\ In q RESPONSE_COLS)).
Proof.
  intros r df qs.
  assert (Hnil : filter (fun q => existsb (pystr_eqb q) RESPONSE_COLS) qs = []
                 <-> (forall q, In q qs -> ~ In q RESPONSE_COLS)).
  { rewrite filter_nil_iff. split; intros H q Hq.
    - rewrite <- known_column_iff. rewrite (H q Hq). discriminate.
    - specialize (H q Hq). rewrite <- known_column_iff in H.
      destruct (existsb _ _); congruence. }
  assert (Hex : filter (fun q => existsb (pystr_eqb q) RESPONSE_COLS) qs <> []
                -> exists q, In q qs /\ In q RESPONSE_COLS).
  { intros Hne. destruct (filter _ qs) as [|q l] eqn:Ef; [contradiction|].
    assert (Hq : In q (filter (fun q => existsb (pystr_eqb q) RESPONSE_COLS) qs))
      by (rewrite Ef; simpl; auto).
    apply filter_In in Hq. destruct Hq as [Hq Hk].
    exists q. split; [exact Hq|now apply known_column_iff]. }
  split.
  - destruct (build_text_df_cases df qs) as [[E R]|[[E [_ R]]|[E [_ R]]]];
      rewrite R; split; intros H;
      try discriminate; try reflexivity;
      try exact (proj1 Hnil E); exfalso; exact (E (proj2 Hnil H)).
  - destruct (build_text_df_cases (r :: df) qs)
      as [[E R]|[[E [F R]]|[E [_ R]]]]; rewrite R.
    + split; [intros [out Hout]; discriminate|].
      intros [q [Hq Hk]]. exfalso. exact (proj1 Hnil E q Hq Hk).
    + discriminate.
    + split; [intros _; now apply Hex|]. intros _. eexists. reflexivity.
Qed.

(** C3 as stated fails: a selection that contains an unknown name next to
    a known one is accepted. *)
Lemma build_text_df_accepts_unknown_name :
  (exists q, In q [py "q1_response"; py "favourite_topping"] /\
             ~ In q RESPONSE_COLS) /\
  build_text_df [person "p1" "South" 30]
    [py "q1_response"; py "favourite_topping"]
  = Ok [{| doc_demo := demo (person "p1" "South" 30);
           text := py "Loved it" |}].
Proof.
  split.
  - exists (py "favourite_topping"). split; [simpl; auto|].
    rewrite <- known_column_iff. vm_compute. discriminate.
  - vm_compute. reflexivity.
Qed.

(** *** Text assembly: the text *)

Lemma valid_selection_kept : forall qs,
  Forall (fun q => In q RESPONSE_COLS) qs ->
  filter (fun q => existsb (pystr_eqb q) RESPONSE_COLS) qs = qs.
Proof.
  induction 1 as [|q qs Hq _ IH]; cbn [filter]; [reflexivity|].
  apply known_column_iff in Hq. rewrite Hq. congruence.
Qed.

Lemma kept_cells_spec_fields : forall r qs,
  map str_of_cell (filter keep_cell (map (column r) qs)) = spec_fields r qs.
Proof.
  induction qs as [|q qs IH]; simpl; [reflexivity|].
  destruct (column r q) as [x|]; simpl; [|exact IH].
  destruct (blank x); simpl; congruence.
Qed.

Lemma row_text_spec_text : forall r qs, row_text qs r = spec_text r qs.
Proof.
  intros r qs. unfold row_text, spec_text.
  now rewrite kept_cells_spec_fields.
Qed.

Lemma spec_fields_not_blank : forall r qs x,
  In x (spec_fields r qs) -> blank x = false.
Proof.
  induction qs as [|q qs IH]; simpl; intros x Hx; [contradiction|].
  destruct (column r q) as [y|]; [|auto].
  destruct (blank y) eqn:E; [auto|].
  destruct Hx as [<-|Hx]; auto.
Qed.

Lemma spec_fields_nil_iff : forall r qs,
  spec_fields r qs = [] <->
  forall q, In q qs ->
    column r q = None \/ exists x, column r q = Some x /\ blank x = true.
Proof.
  induction qs as [|q qs IH]; simpl.
  - split; [intros _ q []|reflexivity].
  - destruct (column r q) as [y|] eqn:Ec.
    + destruct (blank y) eqn:Eb.
      * rewrite IH. split.
        -- intros H q' [<-|Hq']; [right; exists y; rewrite Ec; auto|auto].
        -- intros H q' Hq'. auto.
      * split; [discriminate|].
        intros H. destruct (H q (or_introl eq_refl)) as [F|[x [F1 F2]]];
          congruence.
    + rewrite IH. split.
      * intros H q' [<-|Hq']; [left; exact Ec|auto].
      * intros H q' Hq'. auto.
Qed.

Lemma spec_text_nil_iff : forall r qs,
  spec_text r qs = [] <-> spec_fields r qs = [].
Proof.
  intros r qs. unfold spec_text. split.
  - intros H. destruct (spec_fields r qs) as [|x l] eqn:E; [reflexivity|].
    exfalso.
    assert (Hb : blank x = false)
      by (apply (@spec_fields_not_blank r qs); rewrite E; simpl; auto).
    apply blank_false_iff in Hb. destruct Hb as [c [Hc Hs]].
    apply strip_by_nil_iff in H. rewrite forallb_forall in H.
    rewrite (H c) in Hs; [discriminate|].
    apply in_join with (x := x); simpl; auto.
  - intros ->. reflexivity.
Qed.

(** C4. For a valid selection and a table with rows the assembler
    succeeds; its output rows are,
    in input order, the input rows whose assembled text is not empty, each
    carrying its demographics and the text the specification describes
    (the non-null, non-blank selected fields in selection order, joined by
    single spaces, trimmed).  A text is empty exactly when every selected
    field of the row is null or blank, so no other row is dropped; the
    texts kept are non-empty and trimmed. *)
Theorem build_text_df_assembles : forall df qs,
  df <> [] ->
  qs <> [] -> Forall (fun q => In q RESPONSE_COLS) qs ->
  exists out,
    build_text_df df qs = Ok out /\
    out = map (fun r => {| doc_demo := demo r; text := spec_text r qs |})
              (filter (fun r => negb (pystr_eqb (spec_text r qs) [])) df) /\
    (forall r, spec_text r qs = [] <->
       forall q, In q qs ->
         column r q = None \/ exists x, column r q = Some x /\ blank x = true) /\
    Forall (fun d => text d <> [] /\ trimmed (text d)) out.
Proof.
  intros df qs Hdf Hne Hvalid.
  destruct (build_text_df_cases df qs) as [[E _]|[[_ [F _]]|[_ [_ R]]]].
  - rewrite (valid_selection_kept Hvalid) in E. contradiction.
  - contradiction.
  - rewrite (valid_selection_kept Hvalid) in R.
    eexists. split; [exact R|].
    rewrite filter_map_comm. cbn [text].
    assert (Hout :
      map (fun r => {| doc_demo := demo r; text := row_text qs r |})
          (filter (fun r => negb (pystr_eqb (row_text qs r) [])) df)
      = map (fun r => {| doc_demo := demo r; text := spec_text r qs |})
            (filter (fun r => negb (pystr_eqb (spec_text r qs) [])) df)).
    { transitivity
        (map (fun r => {| doc_demo := demo r; text := spec_text r qs |})
             (filter (fun r => negb (pystr_eqb (row_text qs r) [])) df)).
      - apply map_ext. intros r. now rewrite row_text_spec_text.
      - f_equal. apply filter_ext. intros r. now rewrite row_text_spec_text. }
    rewrite Hout. split; [reflexivity|]. split.
    + intros r. rewrite spec_text_nil_iff. apply spec_fields_nil_iff.
    + apply Forall_forall. intros d Hd. apply in_map_iff in Hd.
      destruct Hd as [r [<- Hr]]. apply filter_In in Hr.
      destruct Hr as [_ Hr]. cbn [text]. split.
      * intros F. rewrite F in Hr. discriminate.
      * apply strip_trimmed.
Qed.

Lemma build_text_df_assembles_witness :
  [no_region] <> [] /\
  [py "q1_response"; py "q2_response"] <> [] /\
  Forall (fun q => In q RESPONSE_COLS) [py "q1_response"; py "q2_response"] /\
  exists out,
    build_text_df [no_region] [py "q1_response"; py "q2_response"] = Ok out /\
    out = map (fun r => {| doc_demo := demo r;
                           text := spec_text r [py "q1_response"; py "q2_response"] |})
              (filter (fun r => negb (pystr_eqb
                         (spec_text r [py "q1_response"; py "q2_response"]) []))
                      [no_region]) /\
    (forall r, spec_text r [py "q1_response"; py "q2_response"] = [] <->
       forall q, In q [py "q1_response"; py "q2_response"] ->
         column r q = None \/ exists x, column r q = Some x /\ blank x = true) /\
    Forall (fun d => text d <> [] /\ trimmed (text d)) out.
Proof.
  assert (Hne : [py "q1_response"; py "q2_response"] <> []) by discriminate.
  assert (Hv : Forall (fun q => In q RESPONSE_COLS)
                 [py "q1_response"; py "q2_response"]).
  { constructor; [left; reflexivity|].
    constructor; [right; left; reflexivity|constructor]. }
  assert (Hdf : [no_region] <> []) by discriminate.
  split; [exact Hdf|]. split; [exact Hne|]. split; [exact Hv|].
  exact (@build_text_df_assembles [no_region]
           [py "q1_response"; py "q2_response"] Hdf Hne Hv).
Defined.

(** The scenario of the specification: with q1 blank and q2 = "Loved it"
    the text is "Loved it"; with both blank the row is dropped. *)
Definition both_blank : participant :=
  {| demo := demo no_region;
     q1_response := Some (py " "); q2_response := None;
     q3_response := Some (py "unused"); q4_response := None;
     q5_response := None |}.

Example build_text_df_scenario :
  build_text_df [no_region; both_blank] [py "q1_response"; py "q2_response"]
  = Ok [{| doc_demo := demo no_region; text := py "Loved it" |}].
Proof. vm_compute. reflexivity. Qed.

End DataProcessor.

(** ** The pandas operations the aggregation uses *)

Module Pandas.
Import PyStr Py.

(** *** Floats *)

Inductive pyfloat :=
| Finite (q : Q)
| PosInf
| NegInf
| NaN.

(** [x >= t]; every comparison with NaN is false. *)
Definition ge (x : pyfloat) (t : Q) : bool :=
  match x with
  | Finite q => Qle_bool t q
  | PosInf => true
  | NegInf => false
  | NaN => false
  end.

(** [n / d] on Python ints. *)
Definition int_truediv (n d : nat) : result pyfloat :=
  match d with
  | O => Raise ZeroDivisionError
  | S _ => Ok (Finite (Z.of_nat n # Pos.of_nat d))
  end.

(** [n / d] element-wise on numeric Series: no exception, IEEE specials. *)
Definition series_truediv (n d : nat) : pyfloat :=
  match d, n with
  | O, O => NaN
  | O, S _ => PosInf
  | S _, _ => Finite (Z.of_nat n # Pos.of_nat d)
  end.

(** [.replace([float("inf")], 0.0)] on one value. *)
Definition replace_inf (x : pyfloat) : pyfloat :=
  match x with
  | PosInf => Finite 0
  | _ => x
  end.

(** *** Scores *)

(** A cell of the [score] column: a float, a string, or null. *)
Inductive score_cell :=
| Num (x : pyfloat)
| Text (s : pystr)
| Null.

(** [pd.to_numeric(_, errors="coerce")] on one cell.  [parse_number] is
    the library's string parser; it answers NaN for text it cannot read. *)
Definition to_numeric (parse_number : pystr -> pyfloat) (c : score_cell)
  : pyfloat :=
  match c with
  | Num x => x
  | Text s => parse_number s
  | Null => NaN
  end.

(** A reader of plain decimals such as [0.75] or [1]: it stands in for
    the library's parser when examples are run. *)
Fixpoint digits (acc : N) (s : pystr) : option N :=
  match s with
  | [] => Some acc
  | c :: s' =>
      if ((48 <=? c) && (c <=? 57))%N
      then digits (acc * 10 + (c - 48))%N s'
      else None
  end.

Definition parse_decimal (s : pystr) : pyfloat :=
  match split 46%N (strip s) with
  | [(_ :: _) as i] =>
      match digits 0%N i with
      | Some n => Finite (Z.of_N n # 1)
      | None => NaN
      end
  | [(_ :: _) as i; (_ :: _) as f] =>
      match digits 0%N i, digits 0%N f with
      | Some a, Some b =>
          let scale := Pos.pow 10 (Pos.of_nat (List.length f)) in
          Finite ((Z.of_N a * Z.pos scale + Z.of_N b) # scale)
      | _, _ => NaN
      end
  | _ => NaN
  end.

(** *** Series helpers *)

(** [.nunique()] of a column of strings. *)
Definition nunique (l : list pystr) : nat :=
  List.length (nodup pystr_eq_dec l).

(** [.dropna()] *)
Fixpoint dropna {A} (l : list (option A)) : list A :=
  match l with
  | [] => []
  | Some x :: l' => x :: dropna l'
  | None :: l' => dropna l'
  end.

(** Distinct values in ascending code-point order: the group keys of
    [groupby], which sorts them. *)
Fixpoint insert_key (k : pystr) (ks : list pystr) : list pystr :=
  match ks with
  | [] => [k]
  | k' :: ks' =>
      if pystr_eqb k k' then ks
      else if pystr_leb k k' then k :: ks
      else k' :: insert_key k ks'
  end.

Definition group_keys (l : list pystr) : list pystr :=
  fold_right insert_key [] l.

(** *** Sorting

    [sort_values(col, ascending=False)] is called with the default
    [kind="quicksort"]; pandas promises a rearrangement of the rows in
    descending order of the column and, for this kind, nothing about rows
    with equal keys.  A sorting routine is therefore any function with
    these two properties. *)

Definition descending {A} (key : A -> nat) : list A -> Prop :=
  StronglySorted (fun a b => key b <= key a).

Record sorter := {
  sort_desc : forall A : Type, (A -> nat) -> list A -> list A;
  sort_desc_perm : forall A (key : A -> nat) l,
    Permutation (sort_desc key l) l;
  sort_desc_sorted : forall A (key : A -> nat) l,
    descending key (sort_desc key l)
}.

(** Insertion before the first element whose key is not larger. *)
Fixpoint insert_desc {A} (key : A -> nat) (x : A) (l : list A) : list A :=
  match l with
  | [] => [x]
  | y :: l' =>
      if (key y <=? key x)%nat then x :: l else y :: insert_desc key x l'
  end.

(** A stable descending sort: equal keys keep their input order. *)
Definition stable_sort_desc {A} (key : A -> nat) (l : list A) : list A :=
  fold_right (insert_desc key) [] l.

Lemma insert_desc_perm : forall A (key : A -> nat) x l,
  Permutation (insert_desc key x l) (x :: l).
Proof.
  induction l as [|y l IH]; simpl; [reflexivity|].
  destruct (key y <=? key x)%nat; [reflexivity|].
  rewrite IH. apply perm_swap.
Qed.

Lemma insert_desc_sorted : forall A (key : A -> nat) x l,
  descending key l -> descending key (insert_desc key x l).
Proof.
  unfold descending. induction l as [|y l IH]; simpl; intros H.
  - constructor; constructor.
  - inversion H as [|? ? Hl Hy]; subst.
    destruct (key y <=? key x)%nat eqn:E.
    + apply Nat.leb_le in E. constructor; [exact H|].
      constructor; [exact E|].
      eapply Forall_impl; [|exact Hy]. simpl. intros; lia.
    + apply Nat.leb_gt in E. constructor; [now apply IH|].
      eapply Permutation_Forall.
      * symmetry. apply insert_desc_perm.
      * constructor; [lia|exact Hy].
Qed.

Lemma stable_sort_desc_perm : forall A (key : A -> nat) l,
  Permutation (stable_sort_desc key l) l.
Proof.
  induction l as [|x l IH]; simpl; [reflexivity|].
  rewrite insert_desc_perm. now constructor.
Qed.

Lemma stable_sort_desc_sorted : forall A (key : A -> nat) l,
  descending key (stable_sort_desc key l).
Proof.
  induction l as [|x l IH]; simpl; [constructor|].
  now apply insert_desc_sorted.
Qed.

Definition stable_sorter : sorter :=
  {| sort_desc := @stable_sort_desc;
     sort_desc_perm := stable_sort_desc_perm;
     sort_desc_sorted := stable_sort_desc_sorted |}.

(** *** Counting distinct values *)

Lemma nunique_spec : forall l,
  NoDup (nodup pystr_eq_dec l) /\
  (forall d, In d (nodup pystr_eq_dec l) <-> In d l).
Proof.
  intros l. split; [apply NoDup_nodup|intros d; apply nodup_In].
Qed.

Lemma nunique_zero_iff : forall l, nunique l = 0 <-> l = [].
Proof.
  intros l. unfold nunique. split.
  - intros H. destruct l as [|x l]; [reflexivity|].
    apply length_zero_iff_nil in H.
    assert (Hx : In x (nodup pystr_eq_dec (x :: l)))
      by (apply nodup_In; simpl; auto).
    rewrite H in Hx. contradiction.
  - intros ->. reflexivity.
Qed.

Lemma in_dropna : forall A (l : list (option A)) x,
  In x (dropna l) <-> In (Some x) l.
Proof.
  induction l as [|[y|] l IH]; simpl; intros x.
  - tauto.
  - rewrite IH. split; intros [H|H]; auto; left; congruence.
  - rewrite IH. split; [auto|]. intros [H|H]; [discriminate|auto].
Qed.

(** *** Group keys *)

Lemma in_insert_key : forall k ks x,
  In x (insert_key k ks) <-> x = k \/ In x ks.
Proof.
  induction ks as [|k' ks IH]; simpl; intros x.
  - intuition congruence.
  - destruct (pystr_eqb k k') eqn:E.
    + apply pystr_eqb_spec in E. subst k'. simpl. intuition congruence.
    + destruct (pystr_leb k k'); simpl.
      * intuition congruence.
      * rewrite IH. intuition congruence.
Qed.

Lemma in_group_keys : forall l x, In x (group_keys l) <-> In x l.
Proof.
  induction l as [|k l IH]; simpl; intros x; [tauto|].
  rewrite in_insert_key, IH. intuition congruence.
Qed.

Lemma nunique_pos : forall l x, In x l -> 1 <= nunique l.
Proof.
  intros l x H. destruct (nunique l) eqn:E; [|lia].
  apply nunique_zero_iff in E. subst. contradiction.
Qed.

End Pandas.

(** ** theme_analyzer.py *)

Module ThemeAnalyzer.
Import PyStr Py ListFacts Pandas.

(** One row of the long-form score table. *)
Record score_record := {
  doc_id : pystr;
  concept_id : pystr;
  concept_name : pystr;
  score : score_cell;
  highlight : option pystr
}.

(** The entries of a concept's metadata dict the summary reads. *)
Record concept := {
  c_name : option pystr;
  c_concept : option pystr;
  c_prompt : option pystr;
  c_summary : option pystr
}.

(** A row of [export_df]. *)
Record export_row := {
  concept_label : pystr;
  criteria : pystr;
  summary : option pystr;
  prevalence : pyfloat;
  n_matches : nat;
  highlights : list pystr
}.

(** [a or b] where [a] comes from [dict.get]: None and the empty string
    are falsy. *)
Definition or_else (a : option pystr) (b : pystr) : pystr :=
  match a with
  | Some (c :: s) => c :: s
  | _ => b
  end.

Definition default_threshold : Q := 3 # 4.

Section Aggregation.

Variable sorting : sorter.
Variable parse_number : pystr -> pyfloat.
Variable threshold : Q.

(** [pd.to_numeric(sub["score"], errors="coerce") >= threshold] *)
Definition is_match (r : score_record) : bool :=
  ge (to_numeric parse_number (score r)) threshold.

(** [score_df.loc[score_df["concept_id"] == cid]] *)
Definition concept_rows (cid : pystr) (score_df : list score_record)
  : list score_record :=
  filter (fun r => pystr_eqb (concept_id r) cid) score_df.

(** [sub.loc[sub["is_match"], doc_id_col].astype(str).nunique()] *)
Definition count_matches (cid : pystr) (score_df : list score_record) : nat :=
  nunique (map doc_id (filter is_match (concept_rows cid score_df))).

(** [sub.loc[sub["is_match"], "highlight"].dropna().astype(str).head(3).tolist()] *)
Definition pick_highlights (cid : pystr) (score_df : list score_record)
  : list pystr :=
  firstn 3 (dropna (map highlight (filter is_match (concept_rows cid score_df)))).

(** The body of the loop over [concepts_dict.items()]. *)
Definition summary_row (score_df : list score_record) (n_docs : nat)
    (item : pystr * concept) : result export_row :=
  let (cid, c) := item in
  let name := or_else (c_name c) (or_else (c_concept c) cid) in
  let prompt := or_else (c_prompt c) [] in
  let n := count_matches cid score_df in
  rbind (if (n_docs =? 0)%nat then Ok (Finite 0) else int_truediv n n_docs)
    (fun prev =>
       Ok {| concept_label := name;
             criteria := prompt;
             summary := c_summary c;
             prevalence := prev;
             n_matches := n;
             highlights := pick_highlights cid score_df |}).

Fixpoint summary_rows (score_df : list score_record) (n_docs : nat)
    (items : list (pystr * concept)) : result (list export_row) :=
  match items with
  | [] => Ok []
  | item :: items' =>
      rbind (summary_row score_df n_docs item) (fun row =>
      rbind (summary_rows score_df n_docs items') (fun rows =>
      Ok (row :: rows)))
  end.

(** [pd.DataFrame(rows).sort_values("n_matches", ascending=False)]: a
    frame built from no rows has no columns, and sorting it by a column
    name is a KeyError. *)
Definition sort_by_n_matches (rows : list export_row)
  : result (list export_row) :=
  match rows with
  | [] => Raise (KeyError "n_matches")
  | _ => Ok (sort_desc sorting n_matches rows)
  end.

Definition _build_export_from_long (score_df : list score_record)
    (concepts_dict : list (pystr * concept)) : result (list export_row) :=
  let n_docs := nunique (map doc_id score_df) in
  rbind (summary_rows score_df n_docs concepts_dict) sort_by_n_matches.

(** *** What the specification says, in its own words *)

(** The summary row of one concept. *)
Definition expected_row (score_df : list score_record)
    (item : pystr * concept) : export_row :=
  let n_docs := nunique (map doc_id score_df) in
  let n := count_matches (fst item) score_df in
  {| concept_label :=
       or_else (c_name (snd item)) (or_else (c_concept (snd item)) (fst item));
     criteria := or_else (c_prompt (snd item)) [];
     summary := c_summary (snd item);
     prevalence :=
       match n_docs with
       | O => Finite 0
       | S _ => Finite (Z.of_nat n # Pos.of_nat n_docs)
       end;
     n_matches := n;
     highlights := pick_highlights (fst item) score_df |}.

(** A score record that can supply an excerpt for concept [cid]: it
    belongs to the concept, clears the threshold and has a highlight. *)
Definition eligible (cid : pystr) (r : score_record) : bool :=
  pystr_eqb (concept_id r) cid && is_match r &&
  match highlight r with Some _ => true | None => false end.

(** *** The export always has the expected rows *)

Lemma summary_row_ok : forall score_df item,
  summary_row score_df (nunique (map doc_id score_df)) item
  = Ok (expected_row score_df item).
Proof.
  intros score_df [cid c]. unfold summary_row, expected_row. simpl.
  destruct (nunique (map doc_id score_df)); reflexivity.
Qed.

Lemma summary_rows_ok : forall score_df items,
  summary_rows score_df (nunique (map doc_id score_df)) items
  = Ok (map (expected_row score_df) items).
Proof.
  induction items as [|item items IH]; simpl; [reflexivity|].
  now rewrite summary_row_ok, IH.
Qed.

Lemma export_ok : forall score_df item items,
  _build_export_from_long score_df (item :: items)
  = Ok (sort_desc sorting n_matches
          (map (expected_row score_df) (item :: items))).
Proof.
  intros. unfold _build_export_from_long.
  rewrite summary_rows_ok. reflexivity.
Qed.

Lemma export_no_concepts : forall score_df,
  _build_export_from_long score_df [] = Raise (KeyError "n_matches").
Proof. reflexivity. Qed.

Lemma export_row_of_concept : forall score_df concepts item,
  In item concepts ->
  exists out,
    _build_export_from_long score_df concepts = Ok out /\
    In (expected_row score_df item) out.
Proof.
  intros score_df [|i0 items] item Hin; [contradiction|].
  eexists. split; [apply export_ok|].
  eapply Permutation_in; [symmetry; apply sort_desc_perm|].
  now apply in_map.
Qed.

(** *** Matching documents *)

Lemma in_matching_rows : forall cid score_df r,
  In r (filter is_match (concept_rows cid score_df)) <->
  In r score_df /\ concept_id r = cid /\ is_match r = true.
Proof.
  intros cid score_df r. unfold concept_rows.
  rewrite !filter_In, pystr_eqb_spec. tauto.
Qed.

Lemma count_matches_zero_without_docs : forall cid score_df,
  nunique (map doc_id score_df) = 0 -> count_matches cid score_df = 0.
Proof.
  intros cid score_df H. apply nunique_zero_iff in H.
  apply map_eq_nil in H. subst. reflexivity.
Qed.

(** C2, as the code has it. Every concept of the mapping has a row in the
    summary; its [n_matches] is the number of distinct document
    identifiers among the concept's score records that clear the
    threshold; its [prevalence] is [n_matches] divided by the number of
    distinct documents of the score table, and is 0, with no division
    fault, when the table has no documents.  The prevalence is 0 exactly
    when [n_matches] is 0. *)
Theorem export_counts_and_prevalence : forall score_df concepts cid c,
  In (cid, c) concepts ->
  exists out row matched_docs all_docs,
    _build_export_from_long score_df concepts = Ok out /\
    In row out /\
    concept_label row = or_else (c_name c) (or_else (c_concept c) cid) /\
    NoDup matched_docs /\
    (forall d, In d matched_docs <->
       exists r, In r score_df /\ concept_id r = cid /\
                 is_match r = true /\ doc_id r = d) /\
    n_matches row = List.length matched_docs /\
    NoDup all_docs /\
    (forall d, In d all_docs <-> exists r, In r score_df /\ doc_id r = d) /\
    prevalence row =
      match List.length all_docs with
      | O => Finite 0
      | S _ => Finite (Z.of_nat (n_matches row) # Pos.of_nat (List.length all_docs))
      end /\
    (List.length all_docs = 0 -> prevalence row = Finite 0) /\
    (exists q, prevalence row = Finite q /\
               (Qeq q 0 <-> n_matches row = 0)).
Proof.
  intros score_df concepts cid c Hin.
  destruct (export_row_of_concept score_df concepts (cid, c) Hin)
    as [out [E Hrow]].
  exists out, (expected_row score_df (cid, c)),
    (nodup pystr_eq_dec
       (map doc_id (filter is_match (concept_rows cid score_df)))),
    (nodup pystr_eq_dec (map doc_id score_df)).
  split; [exact E|]. split; [exact Hrow|]. split; [reflexivity|].
  split; [apply NoDup_nodup|]. split.
  { intros d. rewrite nodup_In, in_map_iff. split.
    - intros [r [Hd Hr]]. apply in_matching_rows in Hr. exists r. tauto.
    - intros [r [H1 [H2 [H3 H4]]]]. exists r. split; [exact H4|].
      apply in_matching_rows. tauto. }
  split; [reflexivity|]. split; [apply NoDup_nodup|]. split.
  { intros d. rewrite nodup_In, in_map_iff. split.
    - intros [r [Hd Hr]]. exists r. tauto.
    - intros [r [H1 H2]]. exists r. tauto. }
  cbn [expected_row prevalence n_matches fst snd].
  fold (nunique (map doc_id score_df)).
  destruct (nunique (map doc_id score_df)) as [|k] eqn:En.
  - split; [reflexivity|]. split; [reflexivity|].
    exists 0%Q. split; [reflexivity|]. split; [|reflexivity].
    intros _. now apply count_matches_zero_without_docs.
  - split; [reflexivity|]. split; [discriminate|].
    eexists. split; [reflexivity|].
    unfold Qeq. simpl. split; intros H; lia.
Qed.

(** The summary rows are the rows of the concepts, rearranged into
    descending order of [n_matches].  Where rows with equal counts end up
    is left to the sorting routine. *)
Lemma export_sorted_descending : forall score_df item items,
  exists out,
    _build_export_from_long score_df (item :: items) = Ok out /\
    Permutation out (map (expected_row score_df) (item :: items)) /\
    descending n_matches out.
Proof.
  intros. eexists. split; [apply export_ok|]. split.
  - apply sort_desc_perm.
  - apply sort_desc_sorted.
Qed.

(** *** Highlights *)

Lemma highlights_of_rows : forall l : list score_record,
  map highlight
      (filter (fun r => match highlight r with Some _ => true | None => false end) l)
  = map Some (dropna (map highlight l)).
Proof.
  induction l as [|r l IH]; simpl; [reflexivity|].
  destruct (highlight r) eqn:E; simpl; [rewrite E|]; congruence.
Qed.

Lemma eligible_rows : forall cid score_df,
  filter (eligible cid) score_df
  = filter (fun r => match highlight r with Some _ => true | None => false end)
      (filter is_match (concept_rows cid score_df)).
Proof.
  intros. unfold concept_rows. rewrite !filter_filter.
  apply filter_ext. intros r. unfold eligible. now rewrite andb_assoc.
Qed.

Lemma firstn_map : forall (A B : Type) (f : A -> B) n l,
  firstn n (map f l) = map f (firstn n l).
Proof.
  induction n as [|n IH]; destruct l; simpl; try reflexivity.
  now rewrite IH.
Qed.

Lemma pick_highlights_prefix : forall cid score_df,
  exists rs rest,
    filter (eligible cid) score_df = rs ++ rest /\
    map highlight rs = map Some (pick_highlights cid score_df) /\
    (List.length (pick_highlights cid score_df) < 3 -> rest = []).
Proof.
  intros cid score_df.
  exists (firstn 3 (filter (eligible cid) score_df)),
         (skipn 3 (filter (eligible cid) score_df)).
  split; [symmetry; apply firstn_skipn|].
  unfold pick_highlights. rewrite <- firstn_map, <- firstn_map.
  rewrite eligible_rows, highlights_of_rows. split; [reflexivity|].
  intros Hlt. apply skipn_all2.
  rewrite <- (length_map highlight), highlights_of_rows, length_map.
  rewrite length_firstn in Hlt. lia.
Qed.

(** C7, as the code has it. The highlight list of a concept has at most
    three entries; they are the highlights of the first records, in input
    order, that belong to the concept, clear the threshold and have a
    highlight that is not null (fewer than three only when there are no
    more such records). *)
Theorem export_highlights : forall score_df concepts cid c,
  In (cid, c) concepts ->
  exists out row rs rest,
    _build_export_from_long score_df concepts = Ok out /\
    In row out /\
    concept_label row = or_else (c_name c) (or_else (c_concept c) cid) /\
    List.length (highlights row) <= 3 /\
    filter (eligible cid) score_df = rs ++ rest /\
    map highlight rs = map Some (highlights row) /\
    (List.length (highlights row) < 3 -> rest = []).
Proof.
  intros score_df concepts cid c Hin.
  destruct (export_row_of_concept score_df concepts (cid, c) Hin)
    as [out [E Hrow]].
  destruct (pick_highlights_prefix cid score_df) as (rs & rest & H1 & H2 & H3).
  exists out, (expected_row score_df (cid, c)), rs, rest.
  cbn [expected_row highlights concept_label fst snd].
  repeat split; auto.
  unfold pick_highlights. rewrite length_firstn. lia.
Qed.

(** *** Records that do not match *)

Lemma nan_is_no_match : forall r,
  to_numeric parse_number (score r) = NaN -> is_match r = false.
Proof. intros r H. unfold is_match. now rewrite H. Qed.

Lemma matching_rows_without : forall cid r l1 l2,
  is_match r = false ->
  filter is_match (concept_rows cid (l1 ++ r :: l2))
  = filter is_match (concept_rows cid (l1 ++ l2)).
Proof.
  intros cid r l1 l2 H. unfold concept_rows.
  rewrite !filter_app. cbn [filter].
  destruct (pystr_eqb (concept_id r) cid); [|reflexivity].
  cbn [filter]. now rewrite H.
Qed.

Lemma count_matches_without : forall cid r l1 l2,
  is_match r = false ->
  count_matches cid (l1 ++ r :: l2) = count_matches cid (l1 ++ l2).
Proof.
  intros. unfold count_matches. now rewrite matching_rows_without.
Qed.

Lemma pick_highlights_without : forall cid r l1 l2,
  is_match r = false ->
  pick_highlights cid (l1 ++ r :: l2) = pick_highlights cid (l1 ++ l2).
Proof.
  intros. unfold pick_highlights. now rewrite matching_rows_without.
Qed.

End Aggregation.

(** *** Worked examples *)

Definition rec (d cid : string) (sc : Q) (h : option string)
  : score_record :=
  {| doc_id := py d; concept_id := py cid; concept_name := py cid;
     score := Num (Finite sc);
     highlight := option_map py h |}.

(** A record whose score cell holds text. *)
Definition rec_text (d cid : string) (sc : string) (h : option string)
  : score_record :=
  {| doc_id := py d; concept_id := py cid; concept_name := py cid;
     score := Text (py sc);
     highlight := option_map py h |}.

Definition named (cid : string) : pystr * concept :=
  (py cid, {| c_name := Some (py cid); c_concept := None;
              c_prompt := None; c_summary := None |}).

(** The scenario of the specification: concept A is matched by three of
    five documents at threshold 0.75. *)
Definition five_docs : list score_record :=
  [rec "1" "A" (9 # 10) None; rec "2" "A" (8 # 10) None; rec "3" "A" (2 # 10) None;
   rec "4" "A" (76 # 100) None; rec "5" "A" (5 # 10) None;
   rec "1" "B" (1 # 10) None].

Example export_scenario :
  _build_export_from_long stable_sorter parse_decimal default_threshold
    five_docs [named "A"; named "B"]
  = Ok [{| concept_label := py "A"; criteria := []; summary := None;
           prevalence := Finite (3 # 5); n_matches := 3; highlights := [] |};
        {| concept_label := py "B"; criteria := []; summary := None;
           prevalence := Finite (0 # 5); n_matches := 0; highlights := [] |}].
Proof. vm_compute. reflexivity. Qed.

Lemma export_counts_and_prevalence_witness :
  In (named "A") [named "A"; named "B"] /\
  exists out row matched_docs all_docs,
    _build_export_from_long stable_sorter parse_decimal default_threshold
      five_docs [named "A"; named "B"] = Ok out /\
    In row out /\
    concept_label row
    = or_else (c_name (snd (named "A")))
        (or_else (c_concept (snd (named "A"))) (py "A")) /\
    NoDup matched_docs /\
    (forall d, In d matched_docs <->
       exists r, In r five_docs /\ concept_id r = py "A" /\
                 is_match parse_decimal default_threshold r = true /\
                 doc_id r = d) /\
    n_matches row = List.length matched_docs /\
    NoDup all_docs /\
    (forall d, In d all_docs <-> exists r, In r five_docs /\ doc_id r = d) /\
    prevalence row =
      match List.length all_docs with
      | O => Finite 0
      | S _ => Finite (Z.of_nat (n_matches row) # Pos.of_nat (List.length all_docs))
      end /\
    (List.length all_docs = 0 -> prevalence row = Finite 0) /\
    (exists q, prevalence row = Finite q /\
               (Qeq q 0 <-> n_matches row = 0)).
Proof.
  split; [simpl; auto|].
  apply (@export_counts_and_prevalence stable_sorter parse_decimal
           default_threshold five_docs [named "A"; named "B"]
           (py "A") (snd (named "A"))).
  simpl. auto.
Defined.

(** C2 as stated fails: the prevalence is also 0 for a concept that no
    document matches, although the score table has documents. *)
Lemma zero_prevalence_with_documents :
  _build_export_from_long stable_sorter parse_decimal default_threshold
    [rec "1" "A" (1 # 10) None] [named "A"]
  = Ok [{| concept_label := py "A"; criteria := []; summary := None;
           prevalence := Finite (0 # 1); n_matches := 0; highlights := [] |}]
  /\ nunique (map doc_id [rec "1" "A" (1 # 10) None]) = 1.
Proof. split; vm_compute; reflexivity. Qed.

Lemma export_highlights_witness :
  In (named "A") [named "A"] /\
  exists out row rs rest,
    _build_export_from_long stable_sorter parse_decimal default_threshold
      [rec "1" "A" (9 # 10) (Some "Great crust"); rec "2" "A" (2 # 10) (Some "meh")]
      [named "A"] = Ok out /\
    In row out /\
    concept_label row
    = or_else (c_name (snd (named "A")))
        (or_else (c_concept (snd (named "A"))) (py "A")) /\
    List.length (highlights row) <= 3 /\
    filter (eligible parse_decimal default_threshold (py "A"))
      [rec "1" "A" (9 # 10) (Some "Great crust"); rec "2" "A" (2 # 10) (Some "meh")]
    = rs ++ rest /\
    map highlight rs = map Some (highlights row) /\
    (List.length (highlights row) < 3 -> rest = []).
Proof.
  split; [simpl; auto|].
  apply (@export_highlights stable_sorter parse_decimal default_threshold
           [rec "1" "A" (9 # 10) (Some "Great crust");
            rec "2" "A" (2 # 10) (Some "meh")]
           [named "A"] (py "A") (snd (named "A"))).
  simpl. auto.
Defined.

(** C7 as stated fails: a matching record whose highlight is the empty
    string is not null, so its empty text is taken as an excerpt. *)
Lemma empty_highlight_is_kept :
  _build_export_from_long stable_sorter parse_decimal default_threshold
    [rec "1" "A" (9 # 10) (Some EmptyString);
     rec "2" "A" (8 # 10) (Some "Great crust")]
    [named "A"]
  = Ok [{| concept_label := py "A"; criteria := []; summary := None;
           prevalence := Finite (2 # 2); n_matches := 2;
           highlights := [[]; py "Great crust"] |}].
Proof. vm_compute. reflexivity. Qed.

End ThemeAnalyzer.

(** ** app.py *)

Module App.
Import PyStr Py ListFacts Pandas DataProcessor ThemeAnalyzer.

(** *** Highlight normalisation *)

(** The value handed to [_to_list_like]: None, a list (each element by its
    [str()]), or anything else (by its [str()]). *)
Inductive highlight_value :=
| VNone
| VList (xs : list pystr)
| VOther (s : pystr).

(** The characters of [" -•\n\t"]. *)
Definition bullet_chars : pystr := [32; 45; 8226; 10; 9]%N.

(** [[str(x).strip() for x in xs if str(x).strip()][:3]] *)
Definition stripped_items (xs : list pystr) : list pystr :=
  firstn 3 (map strip (filter (fun x => negb (blank x)) xs)).

Section Normalisation.

(** [ast.literal_eval(s)] together with the [isinstance(parsed, list)]
    test: the elements (each by its [str()]) when [s] is a literal that
    denotes a list, [None] when the call raises or yields something else. *)
Variable literal_eval_list : pystr -> option (list pystr).

Definition _to_list_like (val : highlight_value) : list pystr :=
  match val with
  | VNone => []
  | VList xs => stripped_items xs
  | VOther v =>
      let s := strip v in
      match literal_eval_list s with
      | Some parsed => stripped_items parsed
      | None =>
          let pieces :=
            map (strip_chars bullet_chars)
                (filter (fun p => negb (blank p)) (split 10%N s)) in
          firstn 3 pieces
      end
  end.

End Normalisation.

(** A reader of list displays whose items are plain quoted strings, such
    as ['a', "b"]: the part of [ast.literal_eval] the examples need.
    Anything else is answered with [None]. *)
Inductive lex_state :=
| Start
| BeforeItem
| InString (quote : pychar) (cur : pystr)
| Escaped (quote : pychar) (cur : pystr)
| AfterItem
| Closed.

Definition is_blank_char (c : pychar) : bool :=
  ((c =? 32) || (c =? 9) || (c =? 10) || (c =? 13))%N.

Fixpoint read_list (st : lex_state) (acc : list pystr) (s : pystr)
  : option (list pystr) :=
  match s with
  | [] => match st with Closed => Some (rev acc) | _ => None end
  | c :: s' =>
      match st with
      | Start =>
          if (c =? 91)%N then read_list BeforeItem acc s' else None
      | BeforeItem =>
          if is_blank_char c then read_list BeforeItem acc s'
          else if (c =? 93)%N then read_list Closed acc s'
          else if ((c =? 39) || (c =? 34))%N then read_list (InString c []) acc s'
          else None
      | InString q cur =>
          if (c =? q)%N then read_list AfterItem (rev cur :: acc) s'
          else if (c =? 92)%N then read_list (Escaped q cur) acc s'
          else if (c =? 10)%N then None
          else read_list (InString q (c :: cur)) acc s'
      | Escaped q cur =>
          if ((c =? 39) || (c =? 34) || (c =? 92))%N
          then read_list (InString q (c :: cur)) acc s'
          else if (c =? 110)%N then read_list (InString q (10%N :: cur)) acc s'
          else if (c =? 116)%N then read_list (InString q (9%N :: cur)) acc s'
          else None
      | AfterItem =>
          if is_blank_char c then read_list AfterItem acc s'
          else if (c =? 44)%N then read_list BeforeItem acc s'
          else if (c =? 93)%N then read_list Closed acc s'
          else None
      | Closed => None
      end
  end.

Definition literal_string_list (s : pystr) : option (list pystr) :=
  read_list Start [] s.

(** *** Properties of the normalisation *)

Lemma stripped_items_clean : forall xs,
  Forall (fun x => x <> [] /\ trimmed x) (stripped_items xs).
Proof.
  intros xs. apply Forall_forall. intros x Hx.
  unfold stripped_items in Hx. apply in_firstn in Hx.
  apply in_map_iff in Hx. destruct Hx as [y [<- Hy]].
  apply filter_In in Hy. destruct Hy as [_ Hy].
  split; [|apply strip_trimmed].
  unfold blank in Hy. destruct (strip y); [discriminate|discriminate].
Qed.

Lemma to_list_like_length : forall le val,
  List.length (_to_list_like le val) <= 3.
Proof.
  intros le [|xs|v]; unfold _to_list_like.
  - simpl. lia.
  - unfold stripped_items. rewrite length_firstn. lia.
  - destruct (le (strip v)).
    + unfold stripped_items. rewrite length_firstn. lia.
    + rewrite length_firstn. lia.
Qed.

(** A list, or a string that reads as a list, is normalised to at most
    three non-empty trimmed strings; the list reading wins over line
    splitting. *)
Lemma to_list_like_structured : forall le val parsed,
  (val = VList parsed \/
   exists v, val = VOther v /\ le (strip v) = Some parsed) ->
  _to_list_like le val = stripped_items parsed /\
  Forall (fun x => x <> [] /\ trimmed x) (_to_list_like le val).
Proof.
  intros le val parsed [->|[v [-> E]]]; simpl; [|rewrite E];
    (split; [reflexivity|apply stripped_items_clean]).
Qed.

(** The three examples of the specification. *)
Example to_list_like_stringified_list :
  _to_list_like literal_string_list
    (VOther (py "['Great crust', 'Loved the sauce']"))
  = [py "Great crust"; py "Loved the sauce"].
Proof. vm_compute. reflexivity. Qed.

Example to_list_like_bullets :
  _to_list_like literal_string_list
    (VOther (py "- crisp crust" ++ [10%N] ++ py "- tangy sauce" ++ [10%N]
               ++ py "- fresh basil"))
  = [py "crisp crust"; py "tangy sauce"; py "fresh basil"].
Proof. vm_compute. reflexivity. Qed.

Example to_list_like_none :
  _to_list_like literal_string_list VNone = [].
Proof. reflexivity. Qed.

(** C8 fails on free text: a line made only of bullet characters passes
    the blank-line test and is then stripped down to the empty string,
    which stays in the result. *)
Theorem to_list_like_keeps_empty_piece : forall le,
  le (py "-") = None ->
  _to_list_like le (VOther (py "-")) = [[]].
Proof.
  intros le H. unfold _to_list_like.
  replace (strip (py "-")) with (py "-") by (vm_compute; reflexivity).
  rewrite H. vm_compute. reflexivity.
Qed.

Lemma to_list_like_keeps_empty_piece_witness :
  literal_string_list (py "-") = None /\
  _to_list_like literal_string_list (VOther (py "-")) = [[]].
Proof.
  split; [vm_compute; reflexivity|].
  apply (@to_list_like_keeps_empty_piece literal_string_list).
  vm_compute. reflexivity.
Defined.

(** A piece may also keep white space the bullet set does not list, here
    a carriage return before the line break. *)
Example to_list_like_untrimmed_piece :
  _to_list_like literal_string_list
    (VOther (py "a" ++ [13%N; 10%N] ++ py "b"))
  = [py "a" ++ [13%N]; py "b"].
Proof. vm_compute. reflexivity. Qed.

(** *** Regional breakdown *)

Definition THRESH : Q := 3 # 4.

(** [df_text["doc_id"] = df_text["participant_id"].astype(str)].  For a
    missing identifier the outcome depends on the pandas version (the text
    nan, or a value that is still missing and that [dropna] removes);
    statements that depend on it take the identifiers to be present. *)
Definition doc_id_of (d : document) : pystr :=
  str_of_cell (participant_id (doc_demo d)).

(** A row of [matched]: document, concept name, region. *)
Record matched_row := {
  m_doc : pystr;
  m_concept : pystr;
  m_region : pystr
}.

(** A row of [by_region]. *)
Record region_row := {
  r_region : pystr;
  r_n_matches : nat;
  r_n_texts : nat;
  r_prevalence : pyfloat
}.

(** [df_text[["doc_id", "region_of_residence"]].dropna()] as (doc, region). *)
Definition region_map (df_text : list document) : list (pystr * pystr) :=
  dropna (map (fun d => option_map (pair (doc_id_of d))
                          (region_of_residence (doc_demo d))) df_text).

(** [rows.groupby(key)[doc].nunique().reset_index(name=...)] on
    (doc, key) pairs. *)
Definition nunique_by_group (rows : list (pystr * pystr))
  : list (pystr * nat) :=
  map (fun k => (k, nunique (map fst
                       (filter (fun p => pystr_eqb (snd p) k) rows))))
      (group_keys (map snd rows)).

Definition totals_by_region (df_text : list document) : list (pystr * nat) :=
  nunique_by_group (region_map df_text).

Fixpoint lookup (k : pystr) (l : list (pystr * nat)) : option nat :=
  match l with
  | [] => None
  | (k', n) :: l' => if pystr_eqb k k' then Some n else lookup k l'
  end.

(** [counts.merge(totals, on=key, how="right").fillna({"n_matches": 0})]:
    one row per row of [totals], the count 0 where [counts] has none. *)
Definition merge_right_fillna (counts totals : list (pystr * nat))
  : list (pystr * nat * nat) :=
  map (fun t => (fst t,
                 match lookup (fst t) counts with
                 | Some n => n
                 | None => 0
                 end,
                 snd t)) totals.

Section Breakdown.

Variable sorting : sorter.
Variable parse_number : pystr -> pyfloat.

(** [score_df.loc[score_df["is_match"], ["doc_id", "concept_name"]]
      .merge(region_map, on="doc_id", how="inner")] *)
Definition matched (score_df : list score_record) (df_text : list document)
  : list matched_row :=
  flat_map
    (fun r =>
       map (fun p => {| m_doc := doc_id r; m_concept := concept_name r;
                        m_region := snd p |})
           (filter (fun p => pystr_eqb (fst p) (doc_id r)) (region_map df_text)))
    (filter (is_match parse_number THRESH) score_df).

(** The table built for one concept from its rows of [matched]. *)
Definition by_region (sub : list matched_row) (totals : list (pystr * nat))
  : list region_row :=
  let counts := nunique_by_group (map (fun m => (m_doc m, m_region m)) sub) in
  let rows :=
    map (fun t =>
           match t with
           | (g, n, total) =>
               {| r_region := g; r_n_matches := n; r_n_texts := total;
                  r_prevalence := replace_inf (series_truediv n total) |}
           end)
        (merge_right_fillna counts totals) in
  sort_desc sorting r_n_matches rows.

(** The loop over [concept_order]; [None] is the branch that only shows
    the notice that there is nothing to display. *)
Definition regional_breakdown (score_df : list score_record)
    (df_text : list document) (export_df : list export_row)
  : option (list (pystr * list region_row)) :=
  let totals := totals_by_region df_text in
  let mt := matched score_df df_text in
  match mt with
  | [] => None
  | _ =>
      let concept_order :=
        match export_df with
        | [] => group_keys (map m_concept mt)
        | _ => map concept_label export_df
        end in
      Some (flat_map
              (fun cname =>
                 match filter (fun m => pystr_eqb (m_concept m) cname) mt with
                 | [] => []
                 | sub => [(cname, by_region sub totals)]
                 end)
              concept_order)
  end.

(** *** Facts about the intermediate tables *)




Lemma in_region_map : forall df_text x g,
  In (x, g) (region_map df_text) <->
  exists d, In d df_text /\ doc_id_of d = x /\
            region_of_residence (doc_demo d) = Some g.
Proof.
  intros df_text x g. unfold region_map. rewrite in_dropna, in_map_iff.
  split.
  - intros [d [E Hd]]. exists d.
    destruct (region_of_residence (doc_demo d)) as [g'|]; simpl in E;
      [|discriminate].
    injection E as E1 E2. subst. auto.
  - intros [d [Hd [E1 E2]]]. exists d. rewrite E2. simpl. subst. auto.
Qed.


Lemma in_matched : forall score_df df_text m,
  In m (matched score_df df_text) <->
  exists r, In r score_df /\ is_match parse_number THRESH r = true /\
            m_doc m = doc_id r /\ m_concept m = concept_name r /\
            In (doc_id r, m_region m) (region_map df_text).
Proof.
  intros score_df df_text m. unfold matched. rewrite in_flat_map. split.
  - intros [r [Hr Hm]]. apply filter_In in Hr. destruct Hr as [Hr1 Hr2].
    apply in_map_iff in Hm. destruct Hm as [[x g] [<- Hp]].
    apply filter_In in Hp. destruct Hp as [Hp1 Hp2].
    apply pystr_eqb_spec in Hp2. simpl in *. subst x.
    exists r. auto.
  - intros [r (Hr & Hm & E1 & E2 & Hin)]. exists r. split.
    + apply filter_In. auto.
    + apply in_map_iff. exists (doc_id r, m_region m). split.
      * destruct m. simpl in *. congruence.
      * apply filter_In. split; [exact Hin|apply pystr_eqb_refl].
Qed.







End Breakdown.

(** *** Worked examples *)

Definition doc (pid : string) (region : option string) : document :=
  {| doc_demo := {| participant_id := Some (py pid); age := None;
                    city_of_residence := None; state_of_residence := None;
                    region_of_residence := option_map py region;
                    income := None; pizza_consumption := None;
                    food_restrictions := None |};
     text := py "Loved it" |}.

Definition slice : list document :=
  [doc "1" (Some "South"); doc "2" (Some "Northeast"); doc "3" (Some "South")].

Definition slice_scores : list score_record :=
  [rec "1" "A" (9 # 10) None; rec "2" "A" (1 # 10) None; rec "3" "A" (8 # 10) None;
   rec "1" "B" (2 # 10) None; rec "2" "B" (3 # 10) None; rec_text "3" "B" "n/a" None].

Definition slice_export : list export_row :=
  [expected_row parse_decimal default_threshold slice_scores (named "A");
   expected_row parse_decimal default_threshold slice_scores (named "B")].

Example slice_export_is_the_summary :
  _build_export_from_long stable_sorter parse_decimal default_threshold
    slice_scores [named "A"; named "B"] = Ok slice_export.
Proof. vm_compute. reflexivity. Qed.

(** Concept A matches two documents, both in the South: the Northeast
    is listed with a zero count. *)
Example slice_breakdown :
  regional_breakdown stable_sorter parse_decimal slice_scores slice slice_export
  = Some [(py "A",
           [{| r_region := py "South"; r_n_matches := 2; r_n_texts := 2;
               r_prevalence := Finite (2 # 2) |};
            {| r_region := py "Northeast"; r_n_matches := 0; r_n_texts := 1;
               r_prevalence := Finite (0 # 1) |}])].
Proof. vm_compute. reflexivity. Qed.





(** *** Scores that are not numbers *)

(** C9. A score record whose score does not parse as a number is not a
    match, and nothing raises: the summary is produced as usual, and
    every row of it has the match count and the highlights it would have
    without that record; the record is also absent from the matched rows
    the regional breakdown is built from. *)
Theorem unparseable_score_never_matches :
  forall (sorting : sorter) (parse_number : pystr -> pyfloat)
         (threshold : Q) (r : score_record),
  to_numeric parse_number (score r) = NaN ->
  is_match parse_number threshold r = false /\
  (forall cid l1 l2,
     count_matches parse_number threshold cid (l1 ++ r :: l2)
     = count_matches parse_number threshold cid (l1 ++ l2) /\
     pick_highlights parse_number threshold cid (l1 ++ r :: l2)
     = pick_highlights parse_number threshold cid (l1 ++ l2)) /\
  (forall l1 l2 item items,
     exists out,
       _build_export_from_long sorting parse_number threshold
         (l1 ++ r :: l2) (item :: items) = Ok out /\
       forall row, In row out ->
         exists cid c,
           In (cid, c) (item :: items) /\
           n_matches row
           = count_matches parse_number threshold cid (l1 ++ l2) /\
           highlights row
           = pick_highlights parse_number threshold cid (l1 ++ l2)) /\
  (forall l1 l2 df_text,
     matched parse_number (l1 ++ r :: l2) df_text
     = matched parse_number (l1 ++ l2) df_text).
Proof.
  intros sorting parse_number threshold r Hnan.
  assert (Hno : forall t, is_match parse_number t r = false)
    by (intros t; now apply nan_is_no_match).
  split; [apply Hno|]. split; [|split].
  - intros cid l1 l2. split.
    + now apply count_matches_without.
    + now apply pick_highlights_without.
  - intros l1 l2 item items. eexists. split; [apply export_ok|].
    intros row Hrow.
    eapply Permutation_in in Hrow; [|apply sort_desc_perm].
    apply in_map_iff in Hrow. destruct Hrow as [[cid c] [<- Hin]].
    exists cid, c. split; [exact Hin|].
    cbn [expected_row n_matches highlights fst snd]. split.
    + now apply count_matches_without.
    + now apply pick_highlights_without.
  - intros l1 l2 df_text. unfold matched.
    now rewrite filter_without by apply Hno.
Qed.

Definition unread : score_record :=
  rec_text "3" "B" "n/a" (Some "nice box").

Lemma unparseable_score_never_matches_witness :
  to_numeric parse_decimal (score unread) = NaN /\
  is_match parse_decimal default_threshold unread = false /\
  (forall cid l1 l2,
     count_matches parse_decimal default_threshold cid (l1 ++ unread :: l2)
     = count_matches parse_decimal default_threshold cid (l1 ++ l2) /\
     pick_highlights parse_decimal default_threshold cid (l1 ++ unread :: l2)
     = pick_highlights parse_decimal default_threshold cid (l1 ++ l2)) /\
  (forall l1 l2 item items,
     exists out,
       _build_export_from_long stable_sorter parse_decimal default_threshold
         (l1 ++ unread :: l2) (item :: items) = Ok out /\
       forall row, In row out ->
         exists cid c,
           In (cid, c) (item :: items) /\
           n_matches row
           = count_matches parse_decimal default_threshold cid (l1 ++ l2) /\
           highlights row
           = pick_highlights parse_decimal default_threshold cid (l1 ++ l2)) /\
  (forall l1 l2 df_text,
     matched parse_decimal (l1 ++ unread :: l2) df_text
     = matched parse_decimal (l1 ++ l2) df_text).
Proof.
  split; [vm_compute; reflexivity|].
  apply (@unparseable_score_never_matches stable_sorter parse_decimal
           default_threshold unread).
  vm_compute. reflexivity.
Defined.

End App.

(** * Further properties of the code *)

(** ** data_processor.py: loading *)

Module Loader.
Import PyStr Py ListFacts DataProcessor.

Definition DEMO_COLS : list pystr :=
  [py "participant_id"; py "age"; py "city_of_residence";
   py "state_of_residence"; py "region_of_residence"; py "income";
   py "pizza_consumption"; py "food_restrictions"].

(** What [pd.read_excel] hands back: the column labels and the rows. *)
Record frame (R : Type) := {
  columns : list pystr;
  rows : list R
}.

(** [repr] of a list of plain strings, as the f-string prints it. *)
Definition string_of_pystr (s : pystr) : string :=
  string_of_list_ascii (map ascii_of_N s).

Fixpoint repr_items (l : list pystr) : string :=
  match l with
  | [] => EmptyString
  | [c] => "'" ++ string_of_pystr c ++ "'"
  | c :: l' => "'" ++ string_of_pystr c ++ "', " ++ repr_items l'
  end.

Definition repr_list (l : list pystr) : string :=
  "[" ++ repr_items l ++ "]".

(** [[c for c in DEMO_COLS + RESPONSE_COLS if c not in df.columns]] *)
Definition missing_columns (cols : list pystr) : list pystr :=
  filter (fun c => negb (existsb (pystr_eqb c) cols))
         (DEMO_COLS ++ RESPONSE_COLS).

(** [load_pizza_df], from the frame that was read. *)
Definition load_pizza_df {R} (df : frame R) : result (frame R) :=
  match missing_columns (columns df) with
  | [] => Ok df
  | missing =>
      Raise (ValueError ("Missing required columns in data file: "
                         ++ repr_list missing))
  end.

Lemma in_cols_iff : forall c cols,
  existsb (pystr_eqb c) cols = true <-> In c cols.
Proof.
  intros c cols. rewrite existsb_exists. split.
  - intros [x [Hx E]]. apply pystr_eqb_spec in E. congruence.
  - intros H. exists c. split; [exact H|apply pystr_eqb_refl].
Qed.

Lemma in_missing_columns : forall cols c,
  In c (missing_columns cols) <->
  In c (DEMO_COLS ++ RESPONSE_COLS) /\ ~ In c cols.
Proof.
  intros cols c. unfold missing_columns. rewrite filter_In.
  pose proof (in_cols_iff c cols) as Hc.
  destruct (existsb (pystr_eqb c) cols); cbn [negb]; split.
  - intros [_ H]. discriminate.
  - intros [_ H]. exfalso. apply H. now apply Hc.
  - intros [H _]. split; [exact H|].
    intros F. apply Hc in F. discriminate.
  - intros [H _]. split; [exact H|reflexivity].
Qed.

(** Loading succeeds, and returns the frame as read, exactly when all
    thirteen required columns are present (extra columns and any column
    order are accepted); otherwise it raises a ValueError whose message
    lists the required columns that are absent, and only those. *)
Theorem load_pizza_df_checks_columns : forall (R : Type) (df : frame R),
  (load_pizza_df df = Ok df <->
   forall c, In c (DEMO_COLS ++ RESPONSE_COLS) -> In c (columns df)) /\
  (forall e, load_pizza_df df = Raise e ->
     exists missing,
       e = ValueError ("Missing required columns in data file: "
                       ++ repr_list missing) /\
       missing <> [] /\
       forall c, In c missing <->
                 In c (DEMO_COLS ++ RESPONSE_COLS) /\ ~ In c (columns df)) /\
  (forall df', load_pizza_df df = Ok df' -> df' = df).
Proof.
  intros R df. unfold load_pizza_df.
  pose proof (in_missing_columns (columns df)) as Hm.
  destruct (missing_columns (columns df)) as [|m ms] eqn:E.
  - split; [|split].
    + split; [|reflexivity]. intros _ c Hc.
      destruct (in_dec pystr_eq_dec c (columns df)) as [Hin|Hout];
        [exact Hin|].
      exfalso. apply (proj2 (Hm c)). auto.
    + intros e H. discriminate.
    + intros df' H. congruence.
  - split; [|split].
    + split; [discriminate|]. intros Hall. exfalso.
      destruct (proj1 (Hm m) (or_introl eq_refl)) as [H1 H2]. auto.
    + intros e H. injection H as <-. exists (m :: ms).
      split; [reflexivity|]. split; [discriminate|exact Hm].
    + intros df' H. discriminate.
Qed.

Example load_pizza_df_reports_missing :
  load_pizza_df
    {| columns := [py "participant_id"; py "age"; py "city_of_residence";
                   py "state_of_residence"; py "income";
                   py "pizza_consumption"; py "food_restrictions";
                   py "q1_response"; py "q2_response"; py "q3_response";
                   py "q5_response"; py "notes"];
       rows := @nil nat |}
  = Raise (ValueError
      "Missing required columns in data file: ['region_of_residence', 'q4_response']").
Proof. vm_compute. reflexivity. Qed.

End Loader.

(** ** data_processor.py: more on filtering and text assembly *)

Module SliceFacts.
Import PyStr Py ListFacts DataProcessor Pandas ThemeAnalyzer App.

Lemma NoDup_map_filter : forall (A B : Type) (f : A -> B) (p : A -> bool) l,
  NoDup (map f l) -> NoDup (map f (filter p l)).
Proof.
  induction l as [|a l IH]; simpl; intros H; [constructor|].
  inversion H as [|? ? Hnin Hnd]; subst.
  destruct (p a); simpl; [|auto].
  constructor; [|auto].
  intros Hin. apply Hnin. apply in_map_iff in Hin.
  destruct Hin as [x [E Hx]]. apply filter_In in Hx.
  apply in_map_iff. exists x. tauto.
Qed.

Lemma filter_length_le' : forall (A : Type) (p : A -> bool) l,
  List.length (filter p l) <= List.length l.
Proof.
  induction l as [|a l IH]; simpl; [lia|].
  destruct (p a); simpl; lia.
Qed.

(** Two calls in a row narrow by both sets of criteria: the second result
    holds the input rows that meet the first and the second criteria; the
    first result and the input frame are still what they were. *)
Theorem filter_by_demographics_compose :
  forall (s : store) df t rg1 ag1 in1 di1 rg2 ag2 in2 di2,
  holds s df t ->
  exists r1 s1 r2 s2,
    filter_by_demographics df rg1 ag1 in1 di1 s = (r1, s1) /\
    filter_by_demographics r1 rg2 ag2 in2 di2 s1 = (r2, s2) /\
    holds s2 r2
      (filter (fun r => meets_criteria rg1 ag1 in1 di1 r
                        && meets_criteria rg2 ag2 in2 di2 r) t) /\
    holds s2 r1 (filter (meets_criteria rg1 ag1 in1 di1) t) /\
    holds s2 df t.
Proof.
  intros s df t rg1 ag1 in1 di1 rg2 ag2 in2 di2 H.
  destruct (filter_by_demographics_run rg1 ag1 in1 di1 H)
    as (r1 & s1 & E1 & H1 & _ & F1).
  destruct (filter_by_demographics_run rg2 ag2 in2 di2 H1)
    as (r2 & s2 & E2 & H2 & _ & F2).
  exists r1, s1, r2, s2.
  rewrite filter_filter in H2. auto 10.
Qed.

Lemma filter_by_demographics_compose_witness :
  holds [four_people] 0 four_people /\
  exists r1 s1 r2 s2,
    filter_by_demographics 0 (Some [py "South"]) None None None
      [four_people] = (r1, s1) /\
    filter_by_demographics r1 None (Some [41%Z]) None None s1 = (r2, s2) /\
    holds s2 r2
      (filter (fun r => meets_criteria (Some [py "South"]) None None None r
                        && meets_criteria None (Some [41%Z]) None None r)
              four_people) /\
    holds s2 r1
      (filter (meets_criteria (Some [py "South"]) None None None) four_people) /\
    holds s2 0 four_people.
Proof.
  split; [reflexivity|].
  apply (@filter_by_demographics_compose [four_people] 0 four_people
           (Some [py "South"]) None None None None (Some [41%Z]) None None).
  reflexivity.
Defined.

(** Narrowing in two steps (regions and ages first, incomes and diets
    next) leaves the same rows as one call with the four criteria. *)
Theorem filter_by_demographics_stepwise :
  forall (s : store) df t regions ages incomes diets,
  holds s df t ->
  exists r1 s1 r2 s2 r3 s3 out,
    filter_by_demographics df regions ages None None s = (r1, s1) /\
    filter_by_demographics r1 None None incomes diets s1 = (r2, s2) /\
    filter_by_demographics df regions ages incomes diets s2 = (r3, s3) /\
    holds s3 r2 out /\ holds s3 r3 out.
Proof.
  intros s df t regions ages incomes diets H.
  destruct (filter_by_demographics_run regions ages None None H)
    as (r1 & s1 & E1 & H1 & _ & F1).
  destruct (filter_by_demographics_run None None incomes diets H1)
    as (r2 & s2 & E2 & H2 & _ & F2).
  assert (Hdf : holds s2 df t) by auto.
  destruct (filter_by_demographics_run regions ages incomes diets Hdf)
    as (r3 & s3 & E3 & H3 & _ & F3).
  exists r1, s1, r2, s2, r3, s3,
    (filter (meets_criteria regions ages incomes diets) t).
  repeat split; auto.
  apply F3. rewrite filter_filter in H2.
  erewrite filter_ext; [exact H2|].
  intros r. unfold meets_criteria, criterion_ok. simpl.
  rewrite !andb_true_r. now rewrite !andb_assoc.
Qed.

Lemma filter_by_demographics_stepwise_witness :
  holds [four_people] 0 four_people /\
  exists r1 s1 r2 s2 r3 s3 out,
    filter_by_demographics 0 (Some [py "South"]) (Some [41%Z]) None None
      [four_people] = (r1, s1) /\
    filter_by_demographics r1 None None (Some [py "50-75k"]) None s1
    = (r2, s2) /\
    filter_by_demographics 0 (Some [py "South"]) (Some [41%Z])
      (Some [py "50-75k"]) None s2 = (r3, s3) /\
    holds s3 r2 out /\ holds s3 r3 out.
Proof.
  split; [reflexivity|].
  apply (@filter_by_demographics_stepwise [four_people] 0 four_people
           (Some [py "South"]) (Some [41%Z]) (Some [py "50-75k"]) None).
  reflexivity.
Defined.

(** Filtering neither repeats nor invents rows: the result is never longer
    than the input, and participant identifiers that are pairwise distinct
    in the input are pairwise distinct in the result. *)
Theorem filter_by_demographics_keeps_ids :
  forall (s : store) df t regions ages incomes diets,
  holds s df t ->
  exists res s' out,
    filter_by_demographics df regions ages incomes diets s = (res, s') /\
    holds s' res out /\
    List.length out <= List.length t /\
    (NoDup (map (fun r => participant_id (demo r)) t) ->
     NoDup (map (fun r => participant_id (demo r)) out)).
Proof.
  intros s df t regions ages incomes diets H.
  destruct (filter_by_demographics_run regions ages incomes diets H)
    as (res & s' & E & Hres & _ & _).
  exists res, s', (filter (meets_criteria regions ages incomes diets) t).
  repeat split; auto.
  - apply filter_length_le'.
  - apply NoDup_map_filter.
Qed.

Lemma filter_by_demographics_keeps_ids_witness :
  holds [four_people] 0 four_people /\
  exists res s' out,
    filter_by_demographics 0 (Some [py "South"]) None None None
      [four_people] = (res, s') /\
    holds s' res out /\
    List.length out <= List.length four_people /\
    (NoDup (map (fun r => participant_id (demo r)) four_people) ->
     NoDup (map (fun r => participant_id (demo r)) out)).
Proof.
  split; [reflexivity|].
  apply (@filter_by_demographics_keeps_ids [four_people] 0 four_people
           (Some [py "South"]) None None None).
  reflexivity.
Defined.

End SliceFacts.

Module TextFacts.
Import PyStr Py ListFacts DataProcessor Pandas ThemeAnalyzer App.

Lemma filter_idem : forall (A : Type) (p : A -> bool) l,
  filter p (filter p l) = filter p l.
Proof.
  intros. rewrite filter_filter. apply filter_ext.
  intros a. now destruct (p a).
Qed.

(** Names that are not response fields have no effect at all: the call
    behaves, result and errors alike, as the call on the selection with
    them removed. *)
Theorem build_text_df_ignores_unknown_names : forall df qs,
  build_text_df df qs
  = build_text_df df
      (filter (fun q => existsb (pystr_eqb q) RESPONSE_COLS) qs).
Proof.
  intros df qs. unfold build_text_df. now rewrite filter_idem.
Qed.

Lemma build_text_df_ok : forall df qs out,
  build_text_df df qs = Ok out ->
  out = filter (fun d => negb (pystr_eqb (text d) []))
          (map (fun r => {| doc_demo := demo r;
                            text := row_text
                              (filter (fun q => existsb (pystr_eqb q) RESPONSE_COLS) qs) r |})
               df).
Proof.
  intros df qs out H.
  destruct (build_text_df_cases df qs) as [[_ R]|[[_ [_ R]]|[_ [_ R]]]];
    rewrite R in H; [discriminate|discriminate|congruence].
Qed.

(** Whatever the selection, a successful call returns only rows that come
    from the input, each with the demographics of its row and a text that
    is non-empty and trimmed; it never returns more rows than it got. *)
Theorem build_text_df_output_rows : forall df qs out,
  build_text_df df qs = Ok out ->
  List.length out <= List.length df /\
  Forall (fun d =>
            text d <> [] /\ trimmed (text d) /\
            exists r, In r df /\ doc_demo d = demo r) out.
Proof.
  intros df qs out H. apply build_text_df_ok in H. subst out. split.
  - etransitivity; [apply SliceFacts.filter_length_le'|].
    now rewrite length_map.
  - apply Forall_forall. intros d Hd. apply filter_In in Hd.
    destruct Hd as [Hd Hne]. apply in_map_iff in Hd.
    destruct Hd as [r [<- Hr]]. cbn [text doc_demo] in *. repeat split.
    + intros F. rewrite F in Hne. discriminate.
    + apply strip_trimmed.
    + exists r. auto.
Qed.

Lemma build_text_df_output_rows_witness :
  build_text_df [no_region; both_blank] [py "q1_response"; py "q2_response"]
  = Ok [{| doc_demo := demo no_region; text := py "Loved it" |}] /\
  List.length [{| doc_demo := demo no_region; text := py "Loved it" |}]
  <= List.length [no_region; both_blank] /\
  Forall (fun d =>
            text d <> [] /\ trimmed (text d) /\
            exists r, In r [no_region; both_blank] /\ doc_demo d = demo r)
         [{| doc_demo := demo no_region; text := py "Loved it" |}].
Proof.
  assert (H : build_text_df [no_region; both_blank]
                [py "q1_response"; py "q2_response"]
              = Ok [{| doc_demo := demo no_region; text := py "Loved it" |}])
    by (vm_compute; reflexivity).
  split; [exact H|].
  exact (@build_text_df_output_rows _ _ _ H).
Defined.

(** Document identifiers, the string forms of the participant
    identifiers, are pairwise distinct in the output when they are in the
    input. *)
Theorem build_text_df_unique_doc_ids : forall df qs out,
  build_text_df df qs = Ok out ->
  NoDup (map (fun r => str_of_cell (participant_id (demo r))) df) ->
  NoDup (map doc_id_of out).
Proof.
  intros df qs out H Hnd. apply build_text_df_ok in H. subst out.
  rewrite filter_map_comm, map_map. unfold doc_id_of. cbn [doc_demo].
  now apply SliceFacts.NoDup_map_filter.
Qed.

Lemma build_text_df_unique_doc_ids_witness :
  build_text_df four_people [py "q1_response"]
  = Ok (map (fun r => {| doc_demo := demo r; text := py "Loved it" |})
            four_people) /\
  NoDup (map (fun r => str_of_cell (participant_id (demo r))) four_people) /\
  NoDup (map doc_id_of
           (map (fun r => {| doc_demo := demo r; text := py "Loved it" |})
                four_people)).
Proof.
  assert (H : build_text_df four_people [py "q1_response"]
              = Ok (map (fun r => {| doc_demo := demo r;
                                     text := py "Loved it" |}) four_people))
    by (vm_compute; reflexivity).
  assert (Hnd : NoDup (map (fun r => str_of_cell (participant_id (demo r)))
                           four_people)).
  { vm_compute. repeat constructor; simpl; intuition discriminate. }
  split; [exact H|]. split; [exact Hnd|].
  exact (@build_text_df_unique_doc_ids _ _ _ H Hnd).
Defined.

End TextFacts.

(** ** Group keys are sorted and distinct *)

Module GroupFacts.
Import PyStr Py ListFacts Pandas.

(** Strictly before, in code-point order. *)
Definition before (a b : pystr) : Prop :=
  pystr_leb a b = true /\ a <> b.

Lemma pystr_leb_total : forall a b,
  pystr_leb a b = false -> pystr_leb b a = true.
Proof.
  induction a as [|x a IH]; destruct b as [|y b]; simpl; intros H;
    try discriminate; try reflexivity.
  destruct (N.ltb x y) eqn:Exy; [discriminate|].
  destruct (N.eqb x y) eqn:Eq.
  - apply N.eqb_eq in Eq. subst y. rewrite N.ltb_irrefl, N.eqb_refl. auto.
  - apply N.ltb_ge in Exy. apply N.eqb_neq in Eq.
    assert (Hlt : (y <? x)%N = true) by (apply N.ltb_lt; lia).
    now rewrite Hlt.
Qed.

Lemma pystr_leb_antisym : forall a b,
  pystr_leb a b = true -> pystr_leb b a = true -> a = b.
Proof.
  induction a as [|x a IH]; destruct b as [|y b]; simpl; intros H1 H2;
    try discriminate; try reflexivity.
  destruct (N.ltb x y) eqn:Exy.
  - apply N.ltb_lt in Exy.
    assert (E1 : (y <? x)%N = false) by (apply N.ltb_ge; lia).
    assert (E2 : (y =? x)%N = false) by (apply N.eqb_neq; lia).
    rewrite E1, E2 in H2. discriminate.
  - destruct (N.eqb x y) eqn:Eq; [|discriminate].
    apply N.eqb_eq in Eq. subst y.
    rewrite N.ltb_irrefl, N.eqb_refl in H2. f_equal. auto.
Qed.

Lemma pystr_leb_trans : forall a b c,
  pystr_leb a b = true -> pystr_leb b c = true -> pystr_leb a c = true.
Proof.
  induction a as [|x a IH]; destruct b as [|y b]; destruct c as [|z c];
    simpl; intros H1 H2; try discriminate; try reflexivity.
  destruct (N.ltb x y) eqn:Exy.
  - apply N.ltb_lt in Exy. destruct (N.ltb y z) eqn:Eyz.
    + apply N.ltb_lt in Eyz.
      assert (E : (x <? z)%N = true) by (apply N.ltb_lt; lia).
      now rewrite E.
    + destruct (N.eqb y z) eqn:Eq; [|discriminate].
      apply N.eqb_eq in Eq. subst z.
      assert (E : (x <? y)%N = true) by (apply N.ltb_lt; lia).
      now rewrite E.
  - destruct (N.eqb x y) eqn:Eq; [|discriminate].
    apply N.eqb_eq in Eq. subst y.
    destruct (N.ltb x z); [reflexivity|].
    destruct (N.eqb x z); [eauto|discriminate].
Qed.

Lemma before_trans : forall a b c, before a b -> before b c -> before a c.
Proof.
  intros a b c [H1 N1] [H2 N2]. split.
  - eapply pystr_leb_trans; eauto.
  - intros ->. apply N2. now apply pystr_leb_antisym.
Qed.

Lemma insert_key_sorted : forall k ks,
  StronglySorted before ks -> StronglySorted before (insert_key k ks).
Proof.
  induction ks as [|k' ks IH]; simpl; intros H.
  - constructor; constructor.
  - inversion H as [|? ? Hs Hall]; subst.
    destruct (pystr_eqb k k') eqn:E; [exact H|].
    assert (Hne : k <> k').
    { intros ->. rewrite pystr_eqb_refl in E. discriminate. }
    destruct (pystr_leb k k') eqn:L.
    + constructor; [exact H|].
      constructor; [split; assumption|].
      eapply Forall_impl; [|exact Hall].
      intros x Hx. apply before_trans with k'; [split; assumption|exact Hx].
    + constructor; [now apply IH|].
      apply Forall_forall. intros x Hx. apply in_insert_key in Hx.
      destruct Hx as [->|Hx].
      * split; [now apply pystr_leb_total|congruence].
      * rewrite Forall_forall in Hall. auto.
Qed.

(** The keys of a grouping (and the options of a sorted-unique list) are
    exactly the values that occur, each once, in ascending code-point
    order. *)
Theorem group_keys_sorted_distinct : forall l,
  StronglySorted before (group_keys l) /\
  NoDup (group_keys l) /\
  (forall x, In x (group_keys l) <-> In x l).
Proof.
  intros l.
  assert (Hs : StronglySorted before (group_keys l)).
  { induction l as [|k l IH]; simpl; [constructor|].
    now apply insert_key_sorted. }
  split; [exact Hs|]. split; [|apply in_group_keys].
  induction Hs as [|a ks Hs IH Hall]; constructor; [|exact IH].
  intros Hin. rewrite Forall_forall in Hall.
  destruct (Hall a Hin) as [_ F]. now apply F.
Qed.

End GroupFacts.

(** ** theme_analyzer.py: more on the summary *)

Module SummaryFacts.
Import PyStr Py ListFacts Pandas ThemeAnalyzer.

Section Summary.

Variable sorting : sorter.
Variable parse_number : pystr -> pyfloat.
Variable threshold : Q.

Lemma nunique_incl : forall l l',
  (forall x, In x l -> In x l') -> nunique l <= nunique l'.
Proof.
  intros l l' H. unfold nunique. apply NoDup_incl_length.
  - apply NoDup_nodup.
  - intros x Hx. apply nodup_In. apply H. now apply nodup_In in Hx.
Qed.

Lemma count_matches_le_docs : forall cid score_df,
  count_matches parse_number threshold cid score_df
  <= nunique (map doc_id score_df).
Proof.
  intros cid score_df. unfold count_matches. apply nunique_incl.
  intros x Hx. apply in_map_iff in Hx. destruct Hx as [r [<- Hr]].
  apply in_matching_rows in Hr. apply in_map. tauto.
Qed.

Lemma export_rows : forall score_df concepts out,
  _build_export_from_long sorting parse_number threshold score_df concepts
  = Ok out ->
  concepts <> [] /\
  Permutation out
    (map (expected_row parse_number threshold score_df) concepts).
Proof.
  intros score_df [|item items] out H.
  - rewrite export_no_concepts in H. discriminate.
  - rewrite export_ok in H. injection H as <-.
    split; [discriminate|apply sort_desc_perm].
Qed.

(** The summary fails in one way only: on an empty concept mapping, with
    a KeyError for the sort column.  In particular no score table, empty
    or not, leads to a division fault. *)
Theorem export_fails_only_without_concepts : forall score_df concepts e,
  _build_export_from_long sorting parse_number threshold score_df concepts
  = Raise e <->
  concepts = [] /\ e = KeyError "n_matches".
Proof.
  intros score_df concepts e. split.
  - destruct concepts as [|item items].
    + rewrite export_no_concepts. intros H. injection H as <-. auto.
    + rewrite export_ok. discriminate.
  - intros [-> ->]. apply export_no_concepts.
Qed.

(** A summary has one row per concept of the mapping, and the labels of
    its rows are the labels of the concepts. *)
Theorem export_one_row_per_concept : forall score_df concepts out,
  _build_export_from_long sorting parse_number threshold score_df concepts
  = Ok out ->
  List.length out = List.length concepts /\
  Permutation (map concept_label out)
    (map (fun item => or_else (c_name (snd item))
                        (or_else (c_concept (snd item)) (fst item)))
         concepts).
Proof.
  intros score_df concepts out H.
  destruct (export_rows _ _ H) as [_ P]. split.
  - rewrite (Permutation_length P). apply length_map.
  - rewrite (Permutation_map concept_label P), map_map. reflexivity.
Qed.

(** In every row of a summary the match count is at most the number of
    documents of the score table, so the prevalence is a number between
    0 and 1. *)
Theorem export_prevalence_bounds : forall score_df concepts out row,
  _build_export_from_long sorting parse_number threshold score_df concepts
  = Ok out ->
  In row out ->
  n_matches row <= nunique (map doc_id score_df) /\
  exists q, prevalence row = Finite q /\ (0 <= q)%Q /\ (q <= 1)%Q.
Proof.
  intros score_df concepts out row H Hrow.
  destruct (export_rows _ _ H) as [_ P].
  eapply Permutation_in in Hrow; [|exact P].
  apply in_map_iff in Hrow. destruct Hrow as [[cid c] [<- _]].
  cbn [expected_row n_matches prevalence fst snd].
  pose proof (count_matches_le_docs cid score_df) as Hle.
  split; [exact Hle|].
  destruct (nunique (map doc_id score_df)) as [|k] eqn:E.
  - exists 0%Q. split; [reflexivity|]. split; [apply Qle_refl|discriminate].
  - eexists. split; [reflexivity|]. unfold Qle. cbn [Qnum Qden].
    rewrite <- Pos.of_nat_succ, Zpos_P_of_succ_nat. split; lia.
Qed.

(** A concept that no document matches has no highlights. *)
Theorem export_no_match_no_highlight : forall score_df concepts out row,
  _build_export_from_long sorting parse_number threshold score_df concepts
  = Ok out ->
  In row out -> n_matches row = 0 -> highlights row = [].
Proof.
  intros score_df concepts out row H Hrow.
  destruct (export_rows _ _ H) as [_ P].
  eapply Permutation_in in Hrow; [|exact P].
  apply in_map_iff in Hrow. destruct Hrow as [[cid c] [<- _]].
  cbn [expected_row n_matches highlights fst snd].
  unfold count_matches, pick_highlights. intros H0.
  apply nunique_zero_iff in H0. apply map_eq_nil in H0.
  now rewrite H0.
Qed.

End Summary.

(** Raising the threshold never adds a match: a record that matches at
    the higher threshold matches at the lower one, and no concept's match
    count grows. *)
Theorem count_matches_antitone :
  forall (parse_number : pystr -> pyfloat) (t1 t2 : Q) cid score_df,
  (t1 <= t2)%Q ->
  (forall r, is_match parse_number t2 r = true ->
             is_match parse_number t1 r = true) /\
  count_matches parse_number t2 cid score_df
  <= count_matches parse_number t1 cid score_df.
Proof.
  intros parse_number t1 t2 cid score_df Hle.
  assert (Hm : forall r, is_match parse_number t2 r = true ->
                         is_match parse_number t1 r = true).
  { intros r. unfold is_match, ge.
    destruct (to_numeric parse_number (score r)); auto.
    rewrite !Qle_bool_iff. intros H. eapply Qle_trans; eauto. }
  split; [exact Hm|].
  unfold count_matches. apply nunique_incl.
  intros x Hx. apply in_map_iff in Hx. destruct Hx as [r [<- Hr]].
  apply in_matching_rows in Hr. apply in_map.
  apply in_matching_rows. intuition.
Qed.

Lemma count_matches_antitone_witness :
  (1 # 2 <= 3 # 4)%Q /\
  (forall r, is_match parse_decimal (3 # 4) r = true ->
             is_match parse_decimal (1 # 2) r = true) /\
  count_matches parse_decimal (3 # 4) (py "A") five_docs
  <= count_matches parse_decimal (1 # 2) (py "A") five_docs.
Proof.
  assert (H : (1 # 2 <= 3 # 4)%Q) by (unfold Qle; simpl; lia).
  split; [exact H|].
  exact (@count_matches_antitone parse_decimal (1 # 2) (3 # 4) (py "A")
           five_docs H).
Defined.

Lemma export_prevalence_bounds_witness :
  _build_export_from_long stable_sorter parse_decimal default_threshold
    five_docs [named "A"; named "B"]
  = Ok [expected_row parse_decimal default_threshold five_docs (named "A");
        expected_row parse_decimal default_threshold five_docs (named "B")] /\
  In (expected_row parse_decimal default_threshold five_docs (named "A"))
     [expected_row parse_decimal default_threshold five_docs (named "A");
      expected_row parse_decimal default_threshold five_docs (named "B")] /\
  n_matches (expected_row parse_decimal default_threshold five_docs (named "A"))
  <= nunique (map doc_id five_docs) /\
  exists q,
    prevalence (expected_row parse_decimal default_threshold five_docs (named "A"))
    = Finite q /\ (0 <= q)%Q /\ (q <= 1)%Q.
Proof.
  assert (H : _build_export_from_long stable_sorter parse_decimal
                default_threshold five_docs [named "A"; named "B"]
              = Ok [expected_row parse_decimal default_threshold five_docs
                      (named "A");
                    expected_row parse_decimal default_threshold five_docs
                      (named "B")])
    by (vm_compute; reflexivity).
  assert (Hin : In (expected_row parse_decimal default_threshold five_docs
                      (named "A"))
                   [expected_row parse_decimal default_threshold five_docs
                      (named "A");
                    expected_row parse_decimal default_threshold five_docs
                      (named "B")]) by (left; reflexivity).
  split; [exact H|]. split; [exact Hin|].
  exact (@export_prevalence_bounds stable_sorter parse_decimal
           default_threshold _ _ _ _ H Hin).
Defined.

Lemma export_one_row_per_concept_witness :
  _build_export_from_long stable_sorter parse_decimal default_threshold
    five_docs [named "A"; named "B"]
  = Ok [expected_row parse_decimal default_threshold five_docs (named "A");
        expected_row parse_decimal default_threshold five_docs (named "B")] /\
  List.length
    [expected_row parse_decimal default_threshold five_docs (named "A");
     expected_row parse_decimal default_threshold five_docs (named "B")]
  = List.length [named "A"; named "B"] /\
  Permutation
    (map concept_label
       [expected_row parse_decimal default_threshold five_docs (named "A");
        expected_row parse_decimal default_threshold five_docs (named "B")])
    (map (fun item => or_else (c_name (snd item))
                        (or_else (c_concept (snd item)) (fst item)))
         [named "A"; named "B"]).
Proof.
  assert (H : _build_export_from_long stable_sorter parse_decimal
                default_threshold five_docs [named "A"; named "B"]
              = Ok [expected_row parse_decimal default_threshold five_docs
                      (named "A");
                    expected_row parse_decimal default_threshold five_docs
                      (named "B")])
    by (vm_compute; reflexivity).
  split; [exact H|].
  exact (@export_one_row_per_concept stable_sorter parse_decimal
           default_threshold _ _ _ H).
Defined.

Lemma export_no_match_no_highlight_witness :
  _build_export_from_long stable_sorter parse_decimal default_threshold
    five_docs [named "A"; named "B"]
  = Ok [expected_row parse_decimal default_threshold five_docs (named "A");
        expected_row parse_decimal default_threshold five_docs (named "B")] /\
  In (expected_row parse_decimal default_threshold five_docs (named "B"))
     [expected_row parse_decimal default_threshold five_docs (named "A");
      expected_row parse_decimal default_threshold five_docs (named "B")] /\
  n_matches (expected_row parse_decimal default_threshold five_docs (named "B"))
  = 0 /\
  highlights (expected_row parse_decimal default_threshold five_docs (named "B"))
  = [].
Proof.
  assert (H : _build_export_from_long stable_sorter parse_decimal
                default_threshold five_docs [named "A"; named "B"]
              = Ok [expected_row parse_decimal default_threshold five_docs
                      (named "A");
                    expected_row parse_decimal default_threshold five_docs
                      (named "B")])
    by (vm_compute; reflexivity).
  assert (Hin : In (expected_row parse_decimal default_threshold five_docs
                      (named "B"))
                   [expected_row parse_decimal default_threshold five_docs
                      (named "A");
                    expected_row parse_decimal default_threshold five_docs
                      (named "B")]) by (right; left; reflexivity).
  assert (H0 : n_matches (expected_row parse_decimal default_threshold
                            five_docs (named "B")) = 0)
    by (vm_compute; reflexivity).
  split; [exact H|]. split; [exact Hin|]. split; [exact H0|].
  exact (@export_no_match_no_highlight stable_sorter parse_decimal
           default_threshold _ _ _ _ H Hin H0).
Defined.

End SummaryFacts.

(** ** app.py: more on highlight normalisation *)

Module HighlightFacts.
Import PyStr Py ListFacts DataProcessor Pandas ThemeAnalyzer App.

Lemma rev_head_last : forall (c : pychar) (t : pystr),
  rev (c :: t) = last (c :: t) c :: rev (removelast (c :: t)).
Proof.
  intros c t.
  rewrite (@app_removelast_last _ (c :: t) c) at 1 by discriminate.
  rewrite rev_app_distr. reflexivity.
Qed.

Lemma strip_by_fixed : forall p c t,
  p c = false -> p (last (c :: t) c) = false ->
  strip_by p (c :: t) = c :: t.
Proof.
  intros p c t Hc Hl. unfold strip_by, rstrip_by.
  cbn [lstrip_by]. rewrite Hc.
  rewrite rev_head_last. cbn [lstrip_by]. rewrite Hl.
  rewrite <- rev_head_last. apply rev_involutive.
Qed.

Lemma strip_by_idem : forall p s, strip_by p (strip_by p s) = strip_by p s.
Proof.
  intros p s. destruct (strip_by p s) as [|c t] eqn:E; [reflexivity|].
  destruct (strip_by_ends p s E) as [Hc Hl]. now apply strip_by_fixed.
Qed.

Lemma filter_Forall_id : forall (A : Type) (p : A -> bool) l,
  Forall (fun x => p x = true) l -> filter p l = l.
Proof.
  induction 1 as [|x l Hx _ IH]; simpl; [reflexivity|].
  rewrite Hx. congruence.
Qed.

Lemma map_Forall_id : forall (A : Type) (f : A -> A) l,
  Forall (fun x => f x = x) l -> map f l = l.
Proof.
  induction 1 as [|x l Hx _ IH]; simpl; congruence.
Qed.

Lemma stripped_items_fixed : forall xs,
  stripped_items (stripped_items xs) = stripped_items xs.
Proof.
  intros xs.
  assert (Hall : Forall (fun x => strip x = x /\ blank x = false)
                   (stripped_items xs)).
  { apply Forall_forall. intros x Hx. unfold stripped_items in Hx.
    apply in_firstn in Hx. apply in_map_iff in Hx.
    destruct Hx as [y [<- Hy]]. apply filter_In in Hy.
    destruct Hy as [_ Hy].
    assert (E : strip (strip y) = strip y) by apply strip_by_idem.
    split; [exact E|]. unfold blank in *. rewrite E.
    destruct (strip y); [discriminate|reflexivity]. }
  unfold stripped_items at 1.
  rewrite filter_Forall_id, map_Forall_id.
  - apply firstn_all2. unfold stripped_items. rewrite length_firstn. lia.
  - eapply Forall_impl; [|exact Hall]. simpl. tauto.
  - eapply Forall_impl; [|exact Hall]. simpl. intros x [_ H]. now rewrite H.
Qed.

(** Normalising is idempotent on lists: what it returns for a list, or
    for a string that reads as a list, is returned unchanged when it is
    normalised again. *)
Theorem to_list_like_idempotent : forall le val parsed,
  (val = VList parsed \/
   exists v, val = VOther v /\ le (strip v) = Some parsed) ->
  _to_list_like le (VList (_to_list_like le val)) = _to_list_like le val.
Proof.
  intros le val parsed [->|[v [-> E]]]; cbn [_to_list_like].
  - apply stripped_items_fixed.
  - rewrite E. apply stripped_items_fixed.
Qed.

Lemma to_list_like_idempotent_witness :
  (VList [py "  Great crust "; py " "; py "Loved the sauce"]
   = VList [py "  Great crust "; py " "; py "Loved the sauce"] \/
   exists v, VList [py "  Great crust "; py " "; py "Loved the sauce"]
             = VOther v /\
             literal_string_list (strip v)
             = Some [py "  Great crust "; py " "; py "Loved the sauce"]) /\
  _to_list_like literal_string_list
    (VList (_to_list_like literal_string_list
              (VList [py "  Great crust "; py " "; py "Loved the sauce"])))
  = _to_list_like literal_string_list
      (VList [py "  Great crust "; py " "; py "Loved the sauce"]).
Proof.
  assert (H : VList [py "  Great crust "; py " "; py "Loved the sauce"]
              = VList [py "  Great crust "; py " "; py "Loved the sauce"] \/
              exists v, VList [py "  Great crust "; py " "; py "Loved the sauce"]
                        = VOther v /\
                        literal_string_list (strip v)
                        = Some [py "  Great crust "; py " "; py "Loved the sauce"])
    by (left; reflexivity).
  split; [exact H|].
  exact (@to_list_like_idempotent literal_string_list _ _ H).
Defined.

Lemma to_list_like_structured_witness :
  (VOther (py "['Great crust', '  ', ' Loved the sauce ']")
   = VList [py "Great crust"; py "  "; py " Loved the sauce "] \/
   exists v, VOther (py "['Great crust', '  ', ' Loved the sauce ']")
             = VOther v /\
             literal_string_list (strip v)
             = Some [py "Great crust"; py "  "; py " Loved the sauce "]) /\
  _to_list_like literal_string_list
    (VOther (py "['Great crust', '  ', ' Loved the sauce ']"))
  = stripped_items [py "Great crust"; py "  "; py " Loved the sauce "] /\
  Forall (fun x => x <> [] /\ trimmed x)
    (_to_list_like literal_string_list
       (VOther (py "['Great crust', '  ', ' Loved the sauce ']"))).
Proof.
  assert (H : VOther (py "['Great crust', '  ', ' Loved the sauce ']")
              = VList [py "Great crust"; py "  "; py " Loved the sauce "] \/
              exists v, VOther (py "['Great crust', '  ', ' Loved the sauce ']")
                        = VOther v /\
                        literal_string_list (strip v)
                        = Some [py "Great crust"; py "  "; py " Loved the sauce "]).
  { right. eexists. split; [reflexivity|]. vm_compute. reflexivity. }
  split; [exact H|].
  exact (@to_list_like_structured literal_string_list _ _ H).
Defined.

(** Free text that is empty or only white space normalises to the empty
    list. *)
Theorem to_list_like_blank_text : forall le v,
  blank v = true -> le [] = None ->
  _to_list_like le (VOther v) = [].
Proof.
  intros le v Hb Hle. unfold blank in Hb.
  destruct (strip v) as [|c t] eqn:E; [|discriminate].
  cbn [_to_list_like]. rewrite E, Hle. reflexivity.
Qed.

Lemma to_list_like_blank_text_witness :
  blank (py "   ") = true /\ literal_string_list [] = None /\
  _to_list_like literal_string_list (VOther (py "   ")) = [].
Proof.
  assert (Hb : blank (py "   ") = true) by (vm_compute; reflexivity).
  assert (Hl : literal_string_list [] = None) by reflexivity.
  split; [exact Hb|]. split; [exact Hl|].
  exact (@to_list_like_blank_text literal_string_list _ Hb Hl).
Defined.

(** In the line-splitting branch no piece begins or ends with a
    character of the bullet set (space, dash, bullet, line feed, tab). *)
Theorem to_list_like_pieces_stripped : forall le v,
  le (strip v) = None ->
  Forall (fun x =>
            match x with
            | [] => True
            | c :: _ =>
                existsb (N.eqb c) bullet_chars = false /\
                existsb (N.eqb (last x c)) bullet_chars = false
            end)
         (_to_list_like le (VOther v)).
Proof.
  intros le v H. cbn [_to_list_like]. rewrite H.
  apply Forall_forall. intros x Hx. apply in_firstn in Hx.
  apply in_map_iff in Hx. destruct Hx as [y [<- _]].
  unfold strip_chars.
  destruct (strip_by _ y) as [|c t] eqn:E; [exact I|].
  exact (strip_by_ends _ y E).
Qed.

Lemma to_list_like_pieces_stripped_witness :
  literal_string_list (strip (py "- crisp crust -")) = None /\
  Forall (fun x =>
            match x with
            | [] => True
            | c :: _ =>
                existsb (N.eqb c) bullet_chars = false /\
                existsb (N.eqb (last x c)) bullet_chars = false
            end)
         (_to_list_like literal_string_list (VOther (py "- crisp crust -"))).
Proof.
  assert (H : literal_string_list (strip (py "- crisp crust -")) = None)
    by (vm_compute; reflexivity).
  split; [exact H|].
  exact (@to_list_like_pieces_stripped literal_string_list _ H).
Defined.

End HighlightFacts.

(** ** app.py: the match mask over a wide score table *)

Module MatchMask.
Import PyStr Py ListFacts Pandas.

(** A cell of an object column. *)
Inductive obj :=
| ONum (x : pyfloat)
| OStr (s : pystr)
| ONull.

(** A column: of a numeric dtype, or of dtype object. *)
Inductive column :=
| Numeric (xs : list pyfloat)
| Object (xs : list obj).

Definition column_length (c : column) : nat :=
  match c with
  | Numeric xs => List.length xs
  | Object xs => List.length xs
  end.

(** A frame with [n_rows] rows; column labels are distinct. *)
Record wide_frame := {
  n_rows : nat;
  cols : list (pystr * column)
}.

Definition well_formed (df : wide_frame) : Prop :=
  Forall (fun c => column_length (snd c) = n_rows df) (cols df).

Fixpoint get_column (name : pystr) (l : list (pystr * column))
  : option column :=
  match l with
  | [] => None
  | (k, c) :: l' => if pystr_eqb name k then Some c else get_column name l'
  end.

(** [x == 1] on an object cell. *)
Definition eq_one (x : obj) : bool :=
  match x with
  | ONum (Finite q) => Qeq_bool q 1
  | _ => false
  end.

Definition _match_mask (score_df : wide_frame) (concept : pystr)
    (threshold : Q) : list bool :=
  match get_column concept (cols score_df) with
  | None => repeat false (n_rows score_df)
  | Some (Numeric xs) => map (fun x => ge x threshold) xs
  | Some (Object xs) => map eq_one xs
  end.

Lemma get_column_in : forall name l c,
  get_column name l = Some c -> In (name, c) l.
Proof.
  induction l as [|[k c'] l IH]; simpl; intros c H; [discriminate|].
  destruct (pystr_eqb name k) eqn:E.
  - apply pystr_eqb_spec in E. injection H as <-. subst. auto.
  - auto.
Qed.

Lemma get_column_none : forall name l,
  get_column name l = None <-> ~ In name (map fst l).
Proof.
  induction l as [|[k c'] l IH]; simpl.
  - tauto.
  - destruct (pystr_eqb name k) eqn:E.
    + apply pystr_eqb_spec in E. subst. split; [discriminate|].
      intros H. exfalso. auto.
    + rewrite IH. split.
      * intros H [F|F]; [|auto]. subst.
        rewrite pystr_eqb_refl in E. discriminate.
      * intros H F. auto.
Qed.

(** The mask has one entry per row of the table; it is False everywhere
    when the table has no column of that name. *)
Theorem match_mask_aligned : forall score_df concept threshold,
  well_formed score_df ->
  List.length (_match_mask score_df concept threshold) = n_rows score_df /\
  (~ In concept (map fst (cols score_df)) ->
   _match_mask score_df concept threshold = repeat false (n_rows score_df)).
Proof.
  intros score_df concept threshold Hwf. unfold _match_mask. split.
  - destruct (get_column concept (cols score_df)) as [c|] eqn:E.
    + apply get_column_in in E. unfold well_formed in Hwf.
      rewrite Forall_forall in Hwf. specialize (Hwf _ E). simpl in Hwf.
      destruct c; rewrite length_map; exact Hwf.
    + apply repeat_length.
  - intros H. apply get_column_none in H. now rewrite H.
Qed.

(** On a numeric column that holds only 0 and 1, any threshold above 0
    and up to 1 gives the mask the comparison with 1 gives: numeric and
    binary scores are treated alike. *)
Theorem match_mask_binary : forall score_df concept threshold xs,
  get_column concept (cols score_df) = Some (Numeric xs) ->
  Forall (fun x => x = Finite 0 \/ x = Finite 1) xs ->
  (0 < threshold)%Q -> (threshold <= 1)%Q ->
  _match_mask score_df concept threshold = map (fun x => eq_one (ONum x)) xs.
Proof.
  intros score_df concept threshold xs E Hbin Hpos Hle.
  unfold _match_mask. rewrite E. apply map_ext_in.
  intros x Hx. rewrite Forall_forall in Hbin.
  destruct (Hbin x Hx) as [->| ->]; simpl.
  - destruct (Qle_bool threshold 0) eqn:F; [|reflexivity].
    apply Qle_bool_iff in F. exfalso.
    exact (Qlt_not_le _ _ Hpos F).
  - apply Qle_bool_iff in Hle. rewrite Hle. reflexivity.
Qed.

Definition wide_example : wide_frame :=
  {| n_rows := 3;
     cols := [(py "doc_id", Object [OStr (py "1"); OStr (py "2"); OStr (py "3")]);
              (py "Crust", Numeric [Finite 1; Finite 0; Finite 1])] |}.

Lemma match_mask_aligned_witness :
  well_formed wide_example /\
  List.length (_match_mask wide_example (py "Sauce") (3 # 4))
  = n_rows wide_example /\
  (~ In (py "Sauce") (map fst (cols wide_example)) ->
   _match_mask wide_example (py "Sauce") (3 # 4)
   = repeat false (n_rows wide_example)).
Proof.
  assert (H : well_formed wide_example)
    by (repeat constructor).
  split; [exact H|].
  exact (@match_mask_aligned wide_example (py "Sauce") (3 # 4) H).
Defined.

Lemma match_mask_binary_witness :
  get_column (py "Crust") (cols wide_example)
  = Some (Numeric [Finite 1; Finite 0; Finite 1]) /\
  Forall (fun x => x = Finite 0 \/ x = Finite 1)
    [Finite 1; Finite 0; Finite 1] /\
  (0 < 3 # 4)%Q /\ (3 # 4 <= 1)%Q /\
  _match_mask wide_example (py "Crust") (3 # 4)
  = map (fun x => eq_one (ONum x)) [Finite 1; Finite 0; Finite 1].
Proof.
  assert (H1 : get_column (py "Crust") (cols wide_example)
               = Some (Numeric [Finite 1; Finite 0; Finite 1]))
    by (vm_compute; reflexivity).
  assert (H2 : Forall (fun x => x = Finite 0 \/ x = Finite 1)
                 [Finite 1; Finite 0; Finite 1])
    by (repeat constructor; auto).
  assert (H3 : (0 < 3 # 4)%Q) by reflexivity.
  assert (H4 : (3 # 4 <= 1)%Q) by (unfold Qle; simpl; lia).
  split; [exact H1|]. split; [exact H2|]. split; [exact H3|].
  split; [exact H4|].
  exact (@match_mask_binary wide_example (py "Crust") (3 # 4) _ H1 H2 H3 H4).
Defined.

End MatchMask.

(** ** app.py: counts per theme and per region *)

Module CountFacts.
Import PyStr Py ListFacts DataProcessor Pandas ThemeAnalyzer App.

(** *** Grouped counts *)

Lemma nunique_by_group_keys : forall rows,
  map fst (nunique_by_group rows) = group_keys (map snd rows).
Proof.
  intros rows. unfold nunique_by_group. rewrite map_map. simpl.
  apply map_id.
Qed.

Lemma in_nunique_by_group : forall rows k n,
  In (k, n) (nunique_by_group rows) <->
  In k (map snd rows) /\
  n = nunique (map fst (filter (fun p => pystr_eqb (snd p) k) rows)).
Proof.
  intros rows k n. unfold nunique_by_group. rewrite in_map_iff. split.
  - intros [k' [E Hk]]. injection E as E1 E2. subst k'.
    rewrite in_group_keys in Hk. split; [exact Hk|now symmetry].
  - intros [Hk ->]. exists k. split; [reflexivity|].
    now apply in_group_keys.
Qed.

Lemma group_count_pos : forall rows k,
  In k (map snd rows) ->
  1 <= nunique (map fst (filter (fun p => pystr_eqb (snd p) k) rows)).
Proof.
  intros rows k Hk. apply in_map_iff in Hk. destruct Hk as [[d k'] [E Hp]].
  simpl in E. subst k'. apply nunique_pos with (x := d).
  change d with (fst (d, k)). apply in_map.
  apply filter_In. split; [exact Hp|apply pystr_eqb_refl].
Qed.

Lemma totals_by_region_facts : forall df_text,
  StronglySorted GroupFacts.before (map fst (totals_by_region df_text)) /\
  NoDup (map fst (totals_by_region df_text)) /\
  (forall g n,
     In (g, n) (totals_by_region df_text) <->
     (exists d, In d df_text /\
                region_of_residence (doc_demo d) = Some g) /\
     n = nunique (map fst (filter (fun p => pystr_eqb (snd p) g)
                             (region_map df_text)))) /\
  (forall g n, In (g, n) (totals_by_region df_text) -> 1 <= n).
Proof.
  intros df_text. unfold totals_by_region.
  rewrite nunique_by_group_keys.
  destruct (GroupFacts.group_keys_sorted_distinct
              (map snd (region_map df_text))) as (Hs & Hn & _).
  assert (Hreg : forall g,
            In g (map snd (region_map df_text)) <->
            exists d, In d df_text /\
                      region_of_residence (doc_demo d) = Some g).
  { intros g. rewrite in_map_iff. split.
    - intros [[x g'] [E Hp]]. simpl in E. subst g'.
      apply in_region_map in Hp. destruct Hp as [d [Hd [_ Hg]]]. eauto.
    - intros [d [Hd Hg]]. exists (doc_id_of d, g). split; [reflexivity|].
      apply in_region_map. eauto. }
  split; [exact Hs|]. split; [exact Hn|]. split.
  - intros g n. rewrite in_nunique_by_group, Hreg. tauto.
  - intros g n H. apply in_nunique_by_group in H. destruct H as [Hk ->].
    now apply group_count_pos.
Qed.

(** The denominators, for a slice whose documents all have an identifier:
    every region of a document of the slice is listed once, in ascending
    order, with the number of distinct documents of the region, which is
    at least 1; nothing else is listed. *)
Theorem totals_by_region_lists_each_region : forall df_text,
  Forall (fun d => participant_id (doc_demo d) <> None) df_text ->
  StronglySorted GroupFacts.before (map fst (totals_by_region df_text)) /\
  NoDup (map fst (totals_by_region df_text)) /\
  (forall g n,
     In (g, n) (totals_by_region df_text) <->
     (exists d, In d df_text /\
                region_of_residence (doc_demo d) = Some g) /\
     n = nunique (map fst (filter (fun p => pystr_eqb (snd p) g)
                             (region_map df_text)))) /\
  (forall g n, In (g, n) (totals_by_region df_text) -> 1 <= n).
Proof. intros df_text _. apply totals_by_region_facts. Qed.

Lemma totals_by_region_lists_each_region_witness :
  Forall (fun d => participant_id (doc_demo d) <> None) slice /\
  StronglySorted GroupFacts.before (map fst (totals_by_region slice)) /\
  NoDup (map fst (totals_by_region slice)) /\
  (forall g n,
     In (g, n) (totals_by_region slice) <->
     (exists d, In d slice /\
                region_of_residence (doc_demo d) = Some g) /\
     n = nunique (map fst (filter (fun p => pystr_eqb (snd p) g)
                             (region_map slice)))) /\
  (forall g n, In (g, n) (totals_by_region slice) -> 1 <= n).
Proof.
  assert (H : Forall (fun d => participant_id (doc_demo d) <> None) slice)
    by (repeat constructor; discriminate).
  split; [exact H|].
  exact (@totals_by_region_lists_each_region slice H).
Defined.

Section Counts.

Variable sorting : sorter.
Variable parse_number : pystr -> pyfloat.

(** [doc_counts]: distinct matching documents per concept name, largest
    first. *)
Definition doc_counts (score_df : list score_record) : list (pystr * nat) :=
  sort_desc sorting snd
    (nunique_by_group
       (map (fun r => (doc_id r, concept_name r))
            (filter (is_match parse_number THRESH) score_df))).

(** The chart of documents per theme lists exactly the concept names
    that have a matching record, each once, with at least one document,
    in descending order of the count; it is empty exactly when no record
    matches. *)
Theorem doc_counts_lists_matched_themes : forall score_df,
  descending snd (doc_counts score_df) /\
  NoDup (map fst (doc_counts score_df)) /\
  (forall name,
     In name (map fst (doc_counts score_df)) <->
     exists r, In r score_df /\ is_match parse_number THRESH r = true /\
               concept_name r = name) /\
  (forall name n, In (name, n) (doc_counts score_df) -> 1 <= n) /\
  (doc_counts score_df = [] <->
   forall r, In r score_df -> is_match parse_number THRESH r = false).
Proof.
  intros score_df. unfold doc_counts.
  set (pairs := map (fun r => (doc_id r, concept_name r))
                    (filter (is_match parse_number THRESH) score_df)).
  pose proof (sort_desc_perm sorting snd (nunique_by_group pairs)) as P.
  assert (Hkeys : forall name,
            In name (map snd pairs) <->
            exists r, In r score_df /\
                      is_match parse_number THRESH r = true /\
                      concept_name r = name).
  { intros name. unfold pairs. rewrite map_map. simpl. rewrite in_map_iff.
    split.
    - intros [r [E Hr]]. apply filter_In in Hr. exists r. tauto.
    - intros [r [H1 [H2 H3]]]. exists r. split; [exact H3|].
      apply filter_In. auto. }
  split; [apply sort_desc_sorted|]. split; [|split; [|split]].
  - eapply Permutation_NoDup.
    + symmetry. apply Permutation_map. exact P.
    + rewrite nunique_by_group_keys.
      apply GroupFacts.group_keys_sorted_distinct.
  - intros name. rewrite <- Hkeys. split; intros H.
    + eapply Permutation_in in H; [|apply Permutation_map; exact P].
      rewrite nunique_by_group_keys, in_group_keys in H. exact H.
    + eapply Permutation_in;
        [symmetry; apply Permutation_map; exact P|].
      rewrite nunique_by_group_keys. now apply in_group_keys.
  - intros name n H. eapply Permutation_in in H; [|exact P].
    apply in_nunique_by_group in H. destruct H as [Hk ->].
    now apply group_count_pos.
  - split.
    + intros E r Hr. destruct (is_match parse_number THRESH r) eqn:Em;
        [|reflexivity].
      exfalso.
      assert (Hin : In (concept_name r) (map snd pairs))
        by (apply Hkeys; eauto).
      rewrite <- in_group_keys, <- nunique_by_group_keys in Hin.
      eapply Permutation_in in Hin;
        [|symmetry; apply Permutation_map; exact P].
      rewrite E in Hin. contradiction.
    + intros Hall.
      assert (Hp : pairs = []).
      { unfold pairs.
        replace (filter (is_match parse_number THRESH) score_df)
          with (@nil score_record); [reflexivity|].
        symmetry. apply filter_nil_iff. exact Hall. }
      rewrite Hp in P. apply Permutation_sym, Permutation_nil in P.
      rewrite Hp. exact P.
Qed.

End Counts.

End CountFacts.

(** ** app.py: more on the regional breakdown *)

Module BreakdownFacts.
Import PyStr Py ListFacts DataProcessor Pandas ThemeAnalyzer App.

Section Tables.

Variable sorting : sorter.
Variable parse_number : pystr -> pyfloat.

Lemma breakdown_some : forall score_df df_text export_df bd,
  regional_breakdown sorting parse_number score_df df_text export_df
  = Some bd ->
  matched parse_number score_df df_text <> [] /\
  bd = flat_map
         (fun cname =>
            match filter (fun m => pystr_eqb (m_concept m) cname)
                         (matched parse_number score_df df_text) with
            | [] => []
            | sub => [(cname, by_region sorting sub (totals_by_region df_text))]
            end)
         (match export_df with
          | [] => group_keys (map m_concept
                                (matched parse_number score_df df_text))
          | _ => map concept_label export_df
          end).
Proof.
  intros score_df df_text export_df bd H. unfold regional_breakdown in H.
  destruct (matched parse_number score_df df_text) as [|m mt] eqn:E;
    [discriminate|].
  injection H as <-. split; [discriminate|reflexivity].
Qed.





End Tables.

Definition slice_table : list region_row :=
  [{| r_region := py "South"; r_n_matches := 2; r_n_texts := 2;
      r_prevalence := Finite (2 # 2) |};
   {| r_region := py "Northeast"; r_n_matches := 0; r_n_texts := 1;
      r_prevalence := Finite (0 # 1) |}].


Section Order.

Variable sorting : sorter.
Variable parse_number : pystr -> pyfloat.

Lemma singleton_flat_map : forall (mt : list matched_row) totals names,
  map fst
    (flat_map
       (fun cname =>
          match filter (fun m => pystr_eqb (m_concept m) cname) mt with
          | [] => []
          | sub => [(cname, by_region sorting sub totals)]
          end) names)
  = filter (fun cname => existsb (fun m => pystr_eqb (m_concept m) cname) mt)
           names.
Proof.
  intros mt totals. induction names as [|c names IH]; simpl; [reflexivity|].
  rewrite map_app, IH.
  destruct (filter (fun m => pystr_eqb (m_concept m) c) mt) as [|m sub] eqn:E.
  - assert (Hx : existsb (fun m => pystr_eqb (m_concept m) c) mt = false).
    { destruct (existsb _ mt) eqn:Ex; [|reflexivity].
      apply existsb_exists in Ex. destruct Ex as [x [Hx Hc]].
      assert (Hin : In x (filter (fun m => pystr_eqb (m_concept m) c) mt))
        by (apply filter_In; auto).
      rewrite E in Hin. contradiction. }
    rewrite Hx. reflexivity.
  - assert (Hx : existsb (fun m => pystr_eqb (m_concept m) c) mt = true).
    { apply existsb_exists. exists m.
      assert (Hin : In m (filter (fun m => pystr_eqb (m_concept m) c) mt))
        by (rewrite E; left; reflexivity).
      apply filter_In in Hin. exact Hin. }
    rewrite Hx. reflexivity.
Qed.

(** Nothing is displayed exactly when no matching record belongs to a
    document with a known region.  Otherwise the breakdown shows the
    concepts of the summary in the summary's order, leaving out those
    without such a match; a label that occurs twice in the summary is
    shown twice. *)
Theorem breakdown_follows_summary_order :
  forall score_df df_text export_df,
  (regional_breakdown sorting parse_number score_df df_text export_df = None
   <->
   forall r d g,
     In r score_df -> is_match parse_number THRESH r = true ->
     In d df_text -> doc_id_of d = doc_id r ->
     region_of_residence (doc_demo d) <> Some g) /\
  (forall bd e es,
     export_df = e :: es ->
     regional_breakdown sorting parse_number score_df df_text export_df
     = Some bd ->
     map fst bd
     = filter (fun cname =>
                 existsb (fun m => pystr_eqb (m_concept m) cname)
                         (matched parse_number score_df df_text))
              (map concept_label export_df)).
Proof.
  intros score_df df_text export_df. split.
  - unfold regional_breakdown.
    destruct (matched parse_number score_df df_text) as [|m mt] eqn:E.
    + split; [|reflexivity]. intros _ r d g Hr Hm Hd Hid Hg.
      assert (Hin : In {| m_doc := doc_id r; m_concept := concept_name r;
                          m_region := g |}
                       (matched parse_number score_df df_text)).
      { apply in_matched. exists r. simpl. repeat split; auto.
        apply in_region_map. exists d. auto. }
      rewrite E in Hin. contradiction.
    + split; [discriminate|]. intros Hnone. exfalso.
      assert (Hin : In m (matched parse_number score_df df_text))
        by (rewrite E; left; reflexivity).
      apply in_matched in Hin. destruct Hin as (r & Hr & Hm & _ & _ & Hrm).
      apply in_region_map in Hrm. destruct Hrm as (d & Hd & Hid & Hg).
      exact (Hnone r d _ Hr Hm Hd Hid Hg).
  - intros bd e es -> H.
    destruct (@breakdown_some sorting parse_number _ _ _ _ H) as [_ ->].
    apply singleton_flat_map.
Qed.

End Order.

Lemma breakdown_follows_summary_order_example :
  regional_breakdown stable_sorter parse_decimal slice_scores slice slice_export
  = Some [(py "A", slice_table)] /\
  map concept_label slice_export = [py "A"; py "B"].
Proof. split; [apply slice_breakdown|vm_compute; reflexivity]. Qed.

End BreakdownFacts.

(** ** app.py: the region control and the slice *)

Module ControlFacts.
Import PyStr Py ListFacts DataProcessor Pandas.

(** [sorted(df_full["region_of_residence"].dropna().unique())] *)
Definition region_options (t : table) : list pystr :=
  group_keys (dropna (map (fun r => region_of_residence (demo r)) t)).

(** Step 1 of a run: the slice for the regions picked in the control. *)
Definition region_slice (df : ref) (regions : list pystr) : M ref :=
  filter_by_demographics df (Some regions) None None None.

Lemma in_region_options : forall t g,
  In g (region_options t) <->
  exists r, In r t /\ region_of_residence (demo r) = Some g.
Proof.
  intros t g. unfold region_options.
  rewrite in_group_keys, in_dropna, in_map_iff. split.
  - intros [r [E Hr]]. eauto.
  - intros [r [Hr E]]. eauto.
Qed.

(** The control offers each region of the table once, in ascending
    order.  For any choice among the offered regions the slice contains a
    participant of every chosen region, and an empty choice keeps the
    whole table: the slice is empty only if the table is. *)
Theorem region_slice_never_empty : forall (s : store) df t regions,
  holds s df t ->
  (forall g, In g regions -> In g (region_options t)) ->
  NoDup (region_options t) /\
  exists res s' out,
    region_slice df regions s = (res, s') /\
    holds s' res out /\
    (regions = [] -> out = t) /\
    (forall g, In g regions ->
       exists r, In r out /\ region_of_residence (demo r) = Some g) /\
    (out = [] <-> t = []).
Proof.
  intros s df t regions H Hsub.
  split; [apply GroupFacts.group_keys_sorted_distinct|].
  destruct (filter_by_demographics_run (Some regions) None None None H)
    as (res & s' & E & Hres & _ & _).
  exists res, s', (filter (meets_criteria (Some regions) None None None) t).
  split; [exact E|]. split; [exact Hres|].
  assert (Hkeep : forall g r, In g regions -> In r t ->
            region_of_residence (demo r) = Some g ->
            In r (filter (meets_criteria (Some regions) None None None) t)).
  { intros g r Hg Hr Er. apply filter_In. split; [exact Hr|].
    unfold meets_criteria, criterion_ok. rewrite Er. simpl.
    rewrite !andb_true_r. apply orb_true_iff. right.
    apply existsb_exists. exists g. split; [exact Hg|apply pystr_eqb_refl]. }
  split; [|split].
  - intros ->. erewrite filter_ext; [apply filter_all|]. reflexivity.
  - intros g Hg. destruct (proj1 (in_region_options t g) (Hsub g Hg))
      as [r [Hr Er]]. exists r. split; [eapply Hkeep; eauto|exact Er].
  - split.
    + intros Hout. destruct regions as [|g gs].
      * erewrite filter_ext in Hout; [rewrite filter_all in Hout; exact Hout|].
        reflexivity.
      * exfalso.
        destruct (proj1 (in_region_options t g) (Hsub g (or_introl eq_refl)))
          as [r [Hr Er]].
        assert (Hin : In r (filter (meets_criteria (Some (g :: gs)) None None None) t))
          by (eapply Hkeep; eauto; left; reflexivity).
        rewrite Hout in Hin. contradiction.
    + intros ->. reflexivity.
Qed.

Lemma region_slice_never_empty_witness :
  holds [four_people] 0 four_people /\
  (forall g, In g [py "South"] -> In g (region_options four_people)) /\
  NoDup (region_options four_people) /\
  exists res s' out,
    region_slice 0 [py "South"] [four_people] = (res, s') /\
    holds s' res out /\
    ([py "South"] = [] -> out = four_people) /\
    (forall g, In g [py "South"] ->
       exists r, In r out /\ region_of_residence (demo r) = Some g) /\
    (out = [] <-> four_people = []).
Proof.
  assert (H : holds [four_people] 0 four_people) by reflexivity.
  assert (Hs : forall g, In g [py "South"] ->
                         In g (region_options four_people)).
  { intros g [<-|[]]. vm_compute. auto. }
  split; [exact H|]. split; [exact Hs|].
  exact (@region_slice_never_empty [four_people] 0 four_people
           [py "South"] H Hs).
Defined.

End ControlFacts.
